(** * Gist viewer: the retrieval-and-presentation pipeline of [Gists.js]

    A shallow embedding of [src/assets/js/Gists.js]: the URL builder
    [gistsApiUrl], the fetcher [requestJson], the component state [data],
    the method [render] (split at its single suspension point), the filter
    predicate [contains] and the display conditions of the template.

    JavaScript strings are sequences of UTF-16 code units, JavaScript
    exceptions are an explicit [Throw] outcome, and the parts of the host
    platform the file calls (percent-encoding, number printing, sorting,
    property access) are written out after ECMA-262.  Two host functions whose
    tables are not part of this repository, [toLowerCase] and [Date.parse],
    are taken through the class [Host]. *)

From Stdlib Require Import ZArith List Bool String Ascii Lia Permutation Sorted.
Import ListNotations.
Local Open Scope Z_scope.
#[local] Set Warnings "-register-all".

(** ** Strings and exceptions *)

(** A JavaScript string: a list of UTF-16 code units, each in [0, 65535]. *)
Definition jsstring := list Z.

(** ASCII literals of the source, as code units. *)
Definition str (s : string) : jsstring :=
  map (fun a => Z.of_N (N_of_ascii a)) (list_ascii_of_string s).

(** Every code unit of the string is a 16-bit value. *)
Definition code_units (s : jsstring) : bool :=
  forallb (fun c => (0 <=? c) && (c <? 65536)) s.

(** An exception object: every value thrown in this program is an [Error]
    instance (constructed by [new Error], by the engine, or by [fetch]), and
    is observed only through its [name] and [message]. *)
Record Error := mkError { name : jsstring; message : jsstring }.

(** The outcome of evaluating an expression: a value or a thrown exception.
    For an awaited promise, [Return] is fulfilment and [Throw] is rejection. *)
Inductive completion (A : Type) : Type :=
| Return (a : A)
| Throw (e : Error).
Arguments Return {A} a.
Arguments Throw {A} e.

Definition bind {A B : Type} (c : completion A) (k : A -> completion B)
  : completion B :=
  match c with
  | Return a => k a
  | Throw e => Throw e
  end.

Notation "x <- c ;; k" := (bind c (fun x => k))
  (at level 61, c at next level, right associativity).

(** Errors raised by the engine itself.  Their message texts differ between
    engines; nothing below depends on them. *)
Definition TypeError (msg : string) : Error := mkError (str "TypeError") (str msg).
Definition URIError : Error := mkError (str "URIError") (str "URI malformed").

(** [Error.prototype.toString], which [`${err}`] calls on an exception. *)
Definition Error_toString (e : Error) : jsstring :=
  match name e, message e with
  | [], msg => msg
  | nm, [] => nm
  | nm, msg => nm ++ str ": " ++ msg
  end.

(** ** Numbers as text *)

(** Decimal digits of a non-negative integer, most significant first. *)
Fixpoint digits_from (fuel : nat) (n : Z) (acc : jsstring) : jsstring :=
  match fuel with
  | O => acc
  | S fuel' =>
      let acc' := (48 + n mod 10) :: acc in
      if n <? 10 then acc' else digits_from fuel' (n / 10) acc'
  end.

Definition decimal (n : Z) : jsstring :=
  digits_from (S (Z.to_nat (Z.log2 n))) n [].

(** [Number::toString] on the safe integers (magnitude at most 2^53 - 1),
    which print as their plain decimal numeral; such a Number is represented
    by its integer value.  Larger Numbers print rounded or in exponent
    notation and are outside this function's range. *)
Definition Number_toString (n : Z) : jsstring :=
  if n <? 0 then 45 :: decimal (- n) else decimal n.

(** ** Percent-encoding ([encodeURIComponent], ECMA-262 Encode) *)

Definition between (lo hi c : Z) : bool := (lo <=? c) && (c <=? hi).

Definition is_alpha (c : Z) : bool := between 65 90 c || between 97 122 c.
Definition is_digit (c : Z) : bool := between 48 57 c.

(** uriMark: [- _ . ! ~ * ' ( )]. *)
Definition is_mark (c : Z) : bool :=
  existsb (Z.eqb c) [45; 95; 46; 33; 126; 42; 39; 40; 41].

(** The set left unescaped by [encodeURIComponent]. *)
Definition unescaped (c : Z) : bool := is_alpha c || is_digit c || is_mark c.

Definition is_leading_surrogate (c : Z) : bool := between 55296 56319 c.
Definition is_trailing_surrogate (c : Z) : bool := between 56320 57343 c.

(** UTF16SurrogatePairToCodePoint. *)
Definition surrogate_pair_to_code_point (lead trail : Z) : Z :=
  (lead - 55296) * 1024 + (trail - 56320) + 65536.

(** The UTF-8 octets of a code point. *)
Definition utf8_octets (cp : Z) : list Z :=
  if cp <? 128 then [cp]
  else if cp <? 2048 then [192 + cp / 64; 128 + cp mod 64]
  else if cp <? 65536 then
    [224 + cp / 4096; 128 + (cp / 64) mod 64; 128 + cp mod 64]
  else
    [240 + cp / 262144; 128 + (cp / 4096) mod 64;
     128 + (cp / 64) mod 64; 128 + cp mod 64].

(** An upper-case hexadecimal digit. *)
Definition hex_digit (d : Z) : Z := if d <? 10 then 48 + d else 55 + d.

(** ["%XX"] for each octet. *)
Definition escape_octets (octets : list Z) : jsstring :=
  flat_map (fun b => [37; hex_digit (b / 16); hex_digit (b mod 16)]) octets.

Fixpoint Encode (s : jsstring) : completion jsstring :=
  match s with
  | [] => Return []
  | c :: rest =>
      if unescaped c then
        r <- Encode rest ;; Return (c :: r)
      else if is_leading_surrogate c then
        match rest with
        | c2 :: rest' =>
            if is_trailing_surrogate c2 then
              r <- Encode rest' ;;
              Return (escape_octets
                        (utf8_octets (surrogate_pair_to_code_point c c2)) ++ r)
            else Throw URIError
        | [] => Throw URIError
        end
      else if is_trailing_surrogate c then Throw URIError
      else
        r <- Encode rest ;; Return (escape_octets (utf8_octets c) ++ r)
  end.

Definition encodeURIComponent (s : jsstring) : completion jsstring := Encode s.

(** ** Percent-decoding ([decodeURIComponent], ECMA-262 Decode) *)

Definition hex_value (c : Z) : option Z :=
  if between 48 57 c then Some (c - 48)
  else if between 65 70 c then Some (c - 55)
  else if between 97 102 c then Some (c - 87)
  else None.

Definition ParseHexOctet (h1 h2 : Z) : option Z :=
  match hex_value h1, hex_value h2 with
  | Some a, Some b => Some (16 * a + b)
  | _, _ => None
  end.

(** The number of leading 1 bits of an octet. *)
Definition leading_ones (b : Z) : Z :=
  if b <? 128 then 0
  else if b <? 192 then 1
  else if b <? 224 then 2
  else if b <? 240 then 3
  else if b <? 248 then 4
  else 5.

(** Reads [n] further escapes ["%XX"], the continuation octets. *)
Fixpoint continuation_octets (n : nat) (s : jsstring)
  : option (list Z * jsstring) :=
  match n with
  | O => Some ([], s)
  | S n' =>
      match s with
      | c :: h1 :: h2 :: s' =>
          if c =? 37 then
            match ParseHexOctet h1 h2 with
            | Some b =>
                match continuation_octets n' s' with
                | Some (bs, r) => Some (b :: bs, r)
                | None => None
                end
            | None => None
            end
          else None
      | _ => None
      end
  end.

Definition is_continuation (b : Z) : bool := between 128 191 b.

(** The code point of a multi-octet UTF-8 sequence, when it is a valid one:
    well-formed continuation octets, shortest form, no surrogate, at most
    U+10FFFF. *)
Definition utf8_code_point (octets : list Z) : option Z :=
  match octets with
  | [b0; b1] =>
      let cp := (b0 - 192) * 64 + (b1 - 128) in
      if is_continuation b1 && (128 <=? cp) then Some cp else None
  | [b0; b1; b2] =>
      let cp := (b0 - 224) * 4096 + (b1 - 128) * 64 + (b2 - 128) in
      if is_continuation b1 && is_continuation b2 && (2048 <=? cp)
         && negb (between 55296 57343 cp)
      then Some cp else None
  | [b0; b1; b2; b3] =>
      let cp := (b0 - 240) * 262144 + (b1 - 128) * 4096
                + (b2 - 128) * 64 + (b3 - 128) in
      if is_continuation b1 && is_continuation b2 && is_continuation b3
         && (65536 <=? cp) && (cp <=? 1114111)
      then Some cp else None
  | _ => None
  end.

(** UTF16EncodeCodePoint. *)
Definition UTF16EncodeCodePoint (cp : Z) : jsstring :=
  if cp <=? 65535 then [cp]
  else [(cp - 65536) / 1024 + 55296; (cp - 65536) mod 1024 + 56320].

(** The decoding loop; [fuel] bounds the number of iterations, and each
    iteration consumes at least one code unit. *)
Fixpoint Decode (fuel : nat) (s : jsstring) : completion jsstring :=
  match s with
  | [] => Return []
  | c :: rest =>
      match fuel with
      | O => Throw URIError
      | S fuel' =>
          if c =? 37 then
            match rest with
            | h1 :: h2 :: rest2 =>
                match ParseHexOctet h1 h2 with
                | None => Throw URIError
                | Some b =>
                    let n := leading_ones b in
                    if n =? 0 then
                      r <- Decode fuel' rest2 ;; Return (b :: r)
                    else if (n =? 1) || (4 <? n) then Throw URIError
                    else
                      match continuation_octets (Z.to_nat (n - 1)) rest2 with
                      | None => Throw URIError
                      | Some (bs, rest3) =>
                          match utf8_code_point (b :: bs) with
                          | None => Throw URIError
                          | Some cp =>
                              r <- Decode fuel' rest3 ;;
                              Return (UTF16EncodeCodePoint cp ++ r)
                          end
                      end
                end
            | _ => Throw URIError
            end
          else
            r <- Decode fuel' rest ;; Return (c :: r)
      end
  end.

Definition decodeURIComponent (s : jsstring) : completion jsstring :=
  Decode (List.length s) s.

(** ** The URL builder *)

(** [gistsApiUrl(username, limit = 100, sinceDate = null)].  An omitted (or
    [undefined]) [limit] is [None] and takes the default; [sinceDate] is
    [None] for [null] or an omitted argument. *)
Definition gistsApiUrl (username : jsstring) (limit : option Z)
    (sinceDate : option jsstring) : completion jsstring :=
  let limit := match limit with Some l => l | None => 100 end in
  let url := str "https://api.github.com/users/" ++ username
             ++ str "/gists?per_page=" ++ Number_toString limit in
  match sinceDate with
  | Some ((_ :: _) as since) =>
      e <- encodeURIComponent since ;;
      Return (url ++ str "&since=" ++ e)
  | _ => Return url
  end.

(** ** Values *)

(** The values that flow through the component: what [JSON.parse] can
    produce, and [undefined].  [VNum] carries the integer Numbers (safe
    integers); objects are their own properties in order. *)
Inductive value : Type :=
| VUndefined
| VNull
| VBool (b : bool)
| VNum (n : Z)
| VStr (s : jsstring)
| VArr (elems : list value)
| VObj (props : list (jsstring * value)).

Fixpoint string_eqb (a b : jsstring) : bool :=
  match a, b with
  | [], [] => true
  | x :: a', y :: b' => (x =? y) && string_eqb a' b'
  | _, _ => false
  end.

Fixpoint own_prop (props : list (jsstring * value)) (key : jsstring)
  : option value :=
  match props with
  | [] => None
  | (k, v) :: props' => if string_eqb k key then Some v else own_prop props' key
  end.

(** [v.key] for a data property name that no built-in prototype defines
    ([description], [updated_at]): own properties of an object, [undefined]
    on the other values, and a [TypeError] on [null] and [undefined]. *)
Definition get_prop (v : value) (key : string) : completion value :=
  match v with
  | VUndefined | VNull =>
      Throw (TypeError "Cannot read properties of null or undefined")
  | VObj props =>
      Return (match own_prop props (str key) with
              | Some x => x
              | None => VUndefined
              end)
  | _ => Return VUndefined
  end.

(** ToBoolean. *)
Definition truthy (v : value) : bool :=
  match v with
  | VUndefined | VNull => false
  | VBool b => b
  | VNum n => negb (n =? 0)
  | VStr s => negb (match s with [] => true | _ => false end)
  | VArr _ | VObj _ => true
  end.

(** ToString.  An array joins its elements with commas ([null] and
    [undefined] elements print empty); an object prints through
    [Object.prototype.toString] unless an own, hence not callable,
    [toString] property hides it. *)
Fixpoint ToString (v : value) : completion jsstring :=
  match v with
  | VUndefined => Return (str "undefined")
  | VNull => Return (str "null")
  | VBool b => Return (if b then str "true" else str "false")
  | VNum n => Return (Number_toString n)
  | VStr s => Return s
  | VArr elems =>
      (fix join (l : list value) : completion jsstring :=
         match l with
         | [] => Return []
         | x :: l' =>
             sx <- match x with
                   | VUndefined | VNull => Return []
                   | _ => ToString x
                   end ;;
             match l' with
             | [] => Return sx
             | _ :: _ => r <- join l' ;; Return (sx ++ str "," ++ r)
             end
         end) elems
  | VObj props =>
      match own_prop props (str "toString") with
      | Some _ => Throw (TypeError "Cannot convert object to primitive value")
      | None => Return (str "[object Object]")
      end
  end.

(** ** The host platform *)

(** The two library functions whose tables live in the engine:
    [String.prototype.toLowerCase], the Unicode case mapping, which maps
    every code point to at least one code point (so the empty string, and
    only it, maps to the empty string); and [Date.parse], which yields a
    time value in milliseconds, or [None] for [NaN]. *)
Class Host := {
  toLowerCase : jsstring -> jsstring;
  toLowerCase_empty : toLowerCase [] = [];
  toLowerCase_nonempty : forall s, toLowerCase s = [] -> s = [];
  Date_parse : jsstring -> option Z;
}.

(** [String.prototype.includes]. *)
Fixpoint starts_with (p s : jsstring) : bool :=
  match p, s with
  | [], _ => true
  | a :: p', b :: s' => (a =? b) && starts_with p' s'
  | _ :: _, [] => false
  end.

Fixpoint includes (s p : jsstring) : bool :=
  starts_with p s
  || match s with
     | [] => false
     | _ :: s' => includes s' p
     end.

(** TimeClip. *)
Definition TimeClip (t : Z) : option Z :=
  if Z.abs t <=? 8640000000000000 then Some t else None.

(** [Array.prototype.sort]'s comparison: [undefined] sorts last, and a
    comparator result of [NaN] counts as [+0]. *)
Definition SortCompare (comparefn : value -> value -> completion (option Z))
    (x y : value) : completion Z :=
  match x, y with
  | VUndefined, VUndefined => Return 0
  | VUndefined, _ => Return 1
  | _, VUndefined => Return (-1)
  | _, _ =>
      v <- comparefn x y ;;
      Return (match v with Some n => n | None => 0 end)
  end.

(** The standard leaves the sorting algorithm to the engine and fixes the
    result for a consistent comparator: the stable sorted arrangement.
    Stable insertion realises it; an exception of the comparator aborts the
    sort. *)
Fixpoint sort_insert (comparefn : value -> value -> completion (option Z))
    (x : value) (l : list value) : completion (list value) :=
  match l with
  | [] => Return [x]
  | y :: l' =>
      v <- SortCompare comparefn x y ;;
      if v <=? 0 then Return (x :: y :: l')
      else (r <- sort_insert comparefn x l' ;; Return (y :: r))
  end.

Fixpoint sort_elems (comparefn : value -> value -> completion (option Z))
    (l : list value) : completion (list value) :=
  match l with
  | [] => Return []
  | x :: l' => s <- sort_elems comparefn l' ;; sort_insert comparefn x s
  end.

(** ** The fetcher *)

(** A received HTTP response: [text] is the body as [resp.text()] reads it,
    [json] the outcome of [resp.json()] on that body. *)
Record Response := {
  status : Z;
  statusText : jsstring;
  text : jsstring;
  json : completion value;
}.

(** [resp.ok]: the status is in the range 200-299. *)
Definition ok (resp : Response) : bool := between 200 299 (status resp).

(** [requestJson(url)]; [fetched] is the settlement of [fetch(url)]. *)
Definition requestJson (url : jsstring) (fetched : completion Response)
  : completion value :=
  resp <- fetched ;;
  if negb (ok resp) then
    let errorBody := text resp in
    Throw (mkError (str "Error")
             (str "HTTP error: " ++ Number_toString (status resp)
              ++ str " - " ++ statusText resp
              ++ str ". URL: " ++ url
              ++ str ". Response: " ++ errorBody))
  else json resp.

(** ** The component *)

Record Props := { username : jsstring; filter : jsstring }.

Record Data := {
  gists : value;
  loading : bool;
  errored : bool;
  errorMsg : jsstring;
  sinceDateThreshold : jsstring;
}.

Definition data : Data := {|
  gists := VNull;
  loading := true;
  errored := false;
  errorMsg := [];
  sinceDateThreshold := str "2022-01-01T00:00:00Z";
|}.

Definition set_gists (v : value) (d : Data) : Data :=
  {| gists := v; loading := loading d; errored := errored d;
     errorMsg := errorMsg d; sinceDateThreshold := sinceDateThreshold d |}.
Definition set_loading (b : bool) (d : Data) : Data :=
  {| gists := gists d; loading := b; errored := errored d;
     errorMsg := errorMsg d; sinceDateThreshold := sinceDateThreshold d |}.
Definition set_errored (b : bool) (d : Data) : Data :=
  {| gists := gists d; loading := loading d; errored := b;
     errorMsg := errorMsg d; sinceDateThreshold := sinceDateThreshold d |}.
Definition set_errorMsg (m : jsstring) (d : Data) : Data :=
  {| gists := gists d; loading := loading d; errored := errored d;
     errorMsg := m; sinceDateThreshold := sinceDateThreshold d |}.

Section Component.
Context {host : Host}.

(** [new Date(v)], as its time value. *)
Definition Date_new (v : value) : completion (option Z) :=
  match v with
  | VStr s => Return (Date_parse s)
  | VUndefined => Return None
  | VNull => Return (Some 0)
  | VBool b => Return (Some (if b then 1 else 0))
  | VNum n => Return (TimeClip n)
  | VArr _ | VObj _ => s <- ToString v ;; Return (Date_parse s)
  end.

(** The comparator of [render]:
    [(a, b) => new Date(b.updated_at) - new Date(a.updated_at)]. *)
Definition by_updated_at (a b : value) : completion (option Z) :=
  ub <- get_prop b "updated_at" ;;
  tb <- Date_new ub ;;
  ua <- get_prop a "updated_at" ;;
  ta <- Date_new ua ;;
  Return (match tb, ta with
          | Some x, Some y => Some (x - y)
          | _, _ => None
          end).

(** [fetchedGists.sort(...)]: only an array has the method. *)
Definition sort_gists (fetchedGists : value) : completion value :=
  match fetchedGists with
  | VArr elems =>
      sorted <- sort_elems by_updated_at elems ;; Return (VArr sorted)
  | VUndefined | VNull =>
      Throw (TypeError "Cannot read properties of null or undefined")
  | _ => Throw (TypeError "fetchedGists.sort is not a function")
  end.

(** The [try] block of [render], after [fetch] has settled. *)
Definition fetch_and_sort (url : jsstring) (fetched : completion Response)
  : completion value :=
  fetchedGists <- requestJson url fetched ;;
  sort_gists fetchedGists.

(** [render], up to its suspension at [await]: the URL is built before any
    field is written, so an exception there leaves the state as it was. *)
Definition render_start (p : Props) (d : Data) : completion (jsstring * Data) :=
  url <- gistsApiUrl (username p) (Some 100) (Some (sinceDateThreshold d)) ;;
  Return (url, set_gists VNull (set_errored false (set_loading true d))).

(** [render], resumed with the settlement of the request: the [try], the
    [catch] and the [finally]. *)
Definition render_settle (url : jsstring) (fetched : completion Response)
    (d : Data) : Data :=
  let d' :=
    match fetch_and_sort url fetched with
    | Return fetchedGists => set_gists fetchedGists d
    | Throw err =>
        let msg := str "Unable to fetch Gists API data. Error: "
                   ++ Error_toString err in
        set_errorMsg msg (set_errored true (set_gists VNull d))
    end in
  set_loading false d'.

(** One whole fetch cycle. *)
Definition render (p : Props) (fetched : completion Response) (d : Data)
  : completion Data :=
  st <- render_start p d ;;
  Return (render_settle (fst st) fetched (snd st)).

(** ** The filter predicate *)

(** [contains(value, filter)]; the diagnostic written to the console on a
    non-string description is not part of the result. *)
Definition contains (value filter : value) : completion bool :=
  match filter with
  | VStr [] => Return true
  | _ =>
      let description := if truthy value then value else VStr [] in
      match description with
      | VStr d =>
          match filter with
          | VStr f => Return (includes (toLowerCase d) (toLowerCase f))
          | VUndefined | VNull =>
              Throw (TypeError "Cannot read properties of null or undefined")
          | _ => Throw (TypeError "filter.toLowerCase is not a function")
          end
      | _ => Return false
      end
  end.

(** ** The template's display conditions *)

(** What the template shows: the error block with its message, the loading
    line, the table, and the two "no results" paragraphs. *)
Record View := {
  error_shown : option jsstring;
  loading_shown : bool;
  table_shown : bool;
  no_match_shown : bool;
  none_found_shown : bool;
}.

(** [gists.filter(gist => contains(gist.description, filter))]. *)
Fixpoint filter_gists (p : Props) (elems : list value)
  : completion (list value) :=
  match elems with
  | [] => Return []
  | gist :: elems' =>
      description <- get_prop gist "description" ;;
      keep <- contains description (VStr (filter p)) ;;
      r <- filter_gists p elems' ;;
      Return (if keep then gist :: r else r)
  end.

(** [!loading && gists && gists.filter(...).length === 0]. *)
Definition no_match_condition (p : Props) (d : Data) : completion bool :=
  if loading d then Return false
  else if negb (truthy (gists d)) then Return false
  else
    match gists d with
    | VArr elems =>
        kept <- filter_gists p elems ;;
        Return (Z.of_nat (List.length kept) =? 0)
    | _ => Throw (TypeError "gists.filter is not a function")
    end.

(** [!loading && gists && gists.length === 0]. *)
Definition none_found_condition (d : Data) : bool :=
  negb (loading d) && truthy (gists d)
  && match gists d with
     | VArr elems => Z.of_nat (List.length elems) =? 0
     | VStr s => Z.of_nat (List.length s) =? 0
     | VObj props =>
         match own_prop props (str "length") with
         | Some (VNum n) => n =? 0
         | _ => false
         end
     | _ => false
     end.

(** The [v-if] of the table row, [contains(gist.description, filter)].  It
    stands on the [<tr>] that also carries the [v-for]; Vue 3, which the page
    imports, evaluates a [v-if] before the [v-for] of the same element and
    outside the scope of the loop, where [gist] is looked up on the
    component, which has no such property, and is [undefined]. *)
Definition row_condition (p : Props) : completion bool :=
  let gist := VUndefined in
  description <- get_prop gist "description" ;;
  contains description (VStr (filter p)).

(** [<table v-if="!loading && gists">]: rendering the table evaluates the
    condition of its row, whatever the list holds.  The rows themselves are
    not part of the [View]. *)
Definition table_block (p : Props) (d : Data) : completion bool :=
  if negb (loading d) && truthy (gists d) then
    rows_shown <- row_condition p ;; Return true
  else Return false.

(** The [v-if] / [v-else] / [v-else-if] structure of the template, its
    elements evaluated in the order in which they are written. *)
Definition template (p : Props) (d : Data) : completion View :=
  if errored d then
    Return {| error_shown := Some (errorMsg d); loading_shown := false;
              table_shown := false; no_match_shown := false;
              none_found_shown := false |}
  else
    table <- table_block p d ;;
    no_match <- no_match_condition p d ;;
    Return {| error_shown := None;
              loading_shown := loading d;
              table_shown := table;
              no_match_shown := no_match;
              none_found_shown :=
                if no_match then false else none_found_condition d |}.

End Component.

(** ** The life cycle of the component *)

(** [mounted] calls [render] once; a later cycle can only be started from
    outside.  Cycles that follow one another are the states below: [Idle]
    before the first cycle and after a settlement, [Awaiting url] while the
    request for [url] is in flight. *)
Inductive phase : Type :=
| Idle
| Awaiting (url : jsstring).

Inductive reachable {host : Host} (p : Props) : phase -> Data -> Prop :=
| reach_created : reachable p Idle data
| reach_start d url d' :
    reachable p Idle d ->
    render_start p d = Return (url, d') ->
    reachable p (Awaiting url) d'
| reach_settle d url fetched :
    reachable p (Awaiting url) d ->
    reachable p Idle (render_settle url fetched d).

(** ** Notions the properties are stated with *)

(** [p] occurs in [s] as a contiguous run of code units. *)
Definition substring_of (p s : jsstring) : Prop :=
  exists pre post, s = pre ++ p ++ post.

(** A string [encodeURIComponent] accepts: no unpaired surrogate. *)
Fixpoint well_formed (s : jsstring) : bool :=
  match s with
  | [] => true
  | c :: rest =>
      if is_leading_surrogate c then
        match rest with
        | c2 :: rest' => is_trailing_surrogate c2 && well_formed rest'
        | [] => false
        end
      else negb (is_trailing_surrogate c) && well_formed rest
  end.

(** The instant a gist was last updated, as the comparator sees it. *)
Definition gist_time {host : Host} (g : value) : option Z :=
  match (u <- get_prop g "updated_at" ;; Date_new u) with
  | Return t => t
  | Throw _ => None
  end.

(** A gist whose [updated_at] denotes an instant. *)
Definition valid_updated_at {host : Host} (g : value) : bool :=
  match gist_time g with
  | Some _ => true
  | None => false
  end.

(** [a] was updated no earlier than [b]. *)
Definition not_older {host : Host} (a b : value) : Prop :=
  match gist_time a, gist_time b with
  | Some ta, Some tb => tb <= ta
  | _, _ => False
  end.

(** A populated Gist List: anything but [null] or [undefined]. *)
Definition populated (v : value) : bool :=
  match v with
  | VUndefined | VNull => false
  | _ => true
  end.

(** Splitting a URL as a URL parser does: the query runs from the first
    [?] to the first [#]; its parameters are separated by [&], and each is a
    name and a value around its first [=]. *)
Fixpoint break_at (sep : Z) (s : jsstring) : jsstring * option jsstring :=
  match s with
  | [] => ([], None)
  | c :: s' =>
      if c =? sep then ([], Some s')
      else let (a, b) := break_at sep s' in (c :: a, b)
  end.

Fixpoint split_on (sep : Z) (s : jsstring) : list jsstring :=
  match s with
  | [] => [[]]
  | c :: s' =>
      if c =? sep then [] :: split_on sep s'
      else match split_on sep s' with
           | h :: t => (c :: h) :: t
           | [] => [[c]]
           end
  end.

Definition url_path (url : jsstring) : jsstring :=
  fst (break_at 35 (fst (break_at 63 url))).

Definition query_params (url : jsstring) : list (jsstring * jsstring) :=
  match snd (break_at 63 (fst (break_at 35 url))) with
  | None => []
  | Some q =>
      map (fun kv => let (k, v) := break_at 61 kv in
                     (k, match v with Some x => x | None => [] end))
          (split_on 38 q)
  end.

(** A GitHub login: letters, digits and hyphens, at least one. *)
Definition valid_username (u : jsstring) : bool :=
  match u with
  | [] => false
  | _ :: _ => forallb (fun c => is_alpha c || is_digit c || (c =? 45)) u
  end.

(** An octet. *)
Definition octet (b : Z) : Prop := 0 <= b < 256.

(** The characters of an escape: [%] and hexadecimal digits. *)
Definition uri_safe (c : Z) : Prop := unescaped c = true \/ c = 37.

(** The separator does not occur in the string. *)
Definition lacks (sep : Z) (s : jsstring) : bool :=
  forallb (fun c => negb (c =? sep)) s.

(** The text a description is compared as: itself when it is a string, and
    the empty string otherwise. *)
Definition description_text (d : value) : jsstring :=
  match d with
  | VStr s => s
  | _ => []
  end.

(** The message of the error [requestJson] throws for a response. *)
Definition http_error_message (url : jsstring) (resp : Response) : jsstring :=
  str "HTTP error: " ++ Number_toString (status resp)
  ++ str " - " ++ statusText resp
  ++ str ". URL: " ++ url
  ++ str ". Response: " ++ text resp.

(** The URL [render] requests under the threshold of [data]. *)
Definition request_url (p : Props) : jsstring :=
  str "https://api.github.com/users/" ++ username p
  ++ str "/gists?per_page=100&since=2022-01-01T00%3A00%3A00Z".

Definition started (d : Data) : Data :=
  set_gists VNull (set_errored false (set_loading true d)).

(** The alphabet of ISO 8601 timestamps: digits and [- : . + T Z]. *)
Definition timestamp_shape (ts : jsstring) : bool :=
  match ts with
  | [] => false
  | _ :: _ =>
      forallb (fun c => is_digit c || existsb (Z.eqb c) [45; 58; 46; 43; 84; 90]) ts
  end.

(** ** A host to run examples on *)

(** Lower-casing of the ASCII letters. *)
Definition ascii_toLowerCase (s : jsstring) : jsstring :=
  map (fun c => if between 65 90 c then c + 32 else c) s.

Fixpoint number_of (acc : Z) (ds : jsstring) : option Z :=
  match ds with
  | [] => Some acc
  | c :: ds' =>
      if is_digit c then number_of (10 * acc + (c - 48)) ds' else None
  end.

Definition days_from_civil (y m d : Z) : Z :=
  let y' := if m <=? 2 then y - 1 else y in
  let era := y' / 400 in
  let yoe := y' - era * 400 in
  let mp := if 2 <? m then m - 3 else m + 9 in
  let doy := (153 * mp + 2) / 5 + d - 1 in
  let doe := yoe * 365 + yoe / 4 - yoe / 100 + doy in
  era * 146097 + doe - 719468.

(** [Date.parse] on the form [YYYY-MM-DDTHH:MM:SSZ]. *)
Definition iso_parse (s : jsstring) : option Z :=
  let field from len := number_of 0 (firstn len (skipn from s)) in
  let char_at i c := nth i s (-1) =? c in
  if (List.length s =? 20)%nat && char_at 4%nat 45 && char_at 7%nat 45
     && char_at 10%nat 84 && char_at 13%nat 58 && char_at 16%nat 58
     && char_at 19%nat 90
  then
    match field 0%nat 4%nat, field 5%nat 2%nat, field 8%nat 2%nat,
          field 11%nat 2%nat, field 14%nat 2%nat, field 17%nat 2%nat with
    | Some y, Some m, Some d, Some h, Some mi, Some se =>
        if between 1 12 m && between 1 31 d && between 0 24 h
           && between 0 59 mi && between 0 59 se
        then Some ((((days_from_civil y m d * 24 + h) * 60 + mi) * 60 + se)
                   * 1000)
        else None
    | _, _, _, _, _, _ => None
    end
  else None.

Definition example_host : Host := {|
  toLowerCase := ascii_toLowerCase;
  toLowerCase_empty := eq_refl;
  toLowerCase_nonempty := fun s => map_eq_nil _ s;
  Date_parse := iso_parse;
|}.

(** A gist as the API returns it, reduced to the fields the component reads. *)
Definition gist (id description updated_at : string) : value :=
  VObj [(str "id", VStr (str id));
        (str "description", VStr (str description));
        (str "updated_at", VStr (str updated_at))].

Definition ok_response (body : value) : Response :=
  {| status := 200; statusText := str "OK"; text := []; json := Return body |}.

Definition example_props : Props :=
  {| username := str "deadflowers"; filter := [] |}.

(** The state after a first cycle whose request was rejected. *)
Definition failed_once : Data :=
  render_settle (host := example_host) (request_url example_props)
    (Throw (TypeError "Failed to fetch")) (started data).

(** ** The cells of a table row *)


(** The own property names of an object, each once. *)
Fixpoint distinct_keys (props : list (jsstring * value)) : list jsstring :=
  match props with
  | [] => []
  | (k, _) :: props' =>
      k :: List.filter (fun k' => negb (string_eqb k k')) (distinct_keys props')
  end.

(** [Object.keys(v).length] on a truthy value: the properties of an object,
    the indices of an array or of a string, nothing on a number or boolean. *)
Definition Object_keys_length (v : value) : Z :=
  match v with
  | VObj props => Z.of_nat (List.length (distinct_keys props))
  | VArr elems => Z.of_nat (List.length elems)
  | VStr s => Z.of_nat (List.length s)
  | _ => 0
  end.


(** The value interpolated by
    [{{ gist.files ? Object.keys(gist.files).length : 0 }}]. *)
Definition files_cell (gist : value) : completion value :=
  files <- get_prop gist "files" ;;
  Return (VNum (if truthy files then Object_keys_length files else 0)).


(** ** The page around the component *)

Definition USERNAME : jsstring := str "deadflowers".
Definition REPO_NAME : jsstring := str "gist-viewer".

(** The computed links of the page. *)
Definition profileUrl (username : jsstring) : jsstring :=
  str "https://github.com/" ++ username.

Definition repoUrl (username : jsstring) : jsstring :=
  profileUrl username ++ str "/" ++ REPO_NAME.

Definition gistsUrl (username : jsstring) : jsstring :=
  str "https://gist.github.com/" ++ username.

(** ** Further notions *)

(** The three states of a fetch cycle. *)
Definition is_loading (d : Data) : Prop :=
  loading d = true /\ errored d = false /\ gists d = VNull.

Definition is_errored (d : Data) : Prop :=
  loading d = false /\ errored d = true /\ gists d = VNull.

Definition is_ready (d : Data) : Prop :=
  loading d = false /\ errored d = false /\ exists elems, gists d = VArr elems.

(** How many of the error block, the loading line and the table are shown. *)
Definition blocks_shown (v : View) : nat :=
  (match error_shown v with Some _ => 1 | None => 0 end
   + (if loading_shown v then 1 else 0)
   + (if table_shown v then 1 else 0))%nat.

(** [null] or [undefined]. *)
Definition nullish (v : value) : bool :=
  match v with
  | VUndefined | VNull => true
  | _ => false
  end.

(** The gist was last updated at the instant [t]. *)
Definition updated_at_is {host : Host} (t : Z) (g : value) : bool :=
  match gist_time g with
  | Some t' => t' =? t
  | None => false
  end.

(** The limit the builder uses. *)
Definition effective_limit (limit : option Z) : Z :=
  match limit with
  | Some l => l
  | None => 100
  end.

(** [Number.MAX_SAFE_INTEGER], 2^53 - 1. *)
Definition MAX_SAFE_INTEGER : Z := 9007199254740991.

(** A [sinceDate] the builder can be given without throwing: [null], or a
    string of 16-bit code units with no unpaired surrogate. *)
Definition accepted_since (sinceDate : option jsstring) : bool :=
  match sinceDate with
  | None => true
  | Some ts => code_units ts && well_formed ts
  end.

Example gistsApiUrl_default :
  gistsApiUrl (str "deadflowers") (Some 100) (Some (str "2022-01-01T00:00:00Z"))
  = Return (str "https://api.github.com/users/deadflowers/gists?per_page=100&since=2022-01-01T00%3A00%3A00Z").
Proof. reflexivity. Qed.

Example decode_example :
  decodeURIComponent (str "2022-01-01T00%3A00%3A00Z") = Return (str "2022-01-01T00:00:00Z").
Proof. reflexivity. Qed.

Example encode_euro :
  encodeURIComponent [8364] = Return (str "%E2%82%AC")
  /\ decodeURIComponent (str "%E2%82%AC") = Return [8364]
  /\ encodeURIComponent [55357; 56832] = Return (str "%F0%9F%98%80")
  /\ decodeURIComponent (str "%F0%9F%98%80") = Return [55357; 56832]
  /\ Number_toString 100 = str "100" /\ Number_toString (-7) = str "-7"
  /\ Number_toString 0 = str "0" /\ Number_toString 16 = str "16".
Proof. repeat split; reflexivity. Qed.

Example iso_parse_epoch :
  iso_parse (str "1970-01-01T00:00:00Z") = Some 0
  /\ iso_parse (str "2022-01-01T00:00:00Z") = Some 1640995200000
  /\ iso_parse (str "2023-05-01T12:30:15Z") = Some 1682944215000
  /\ iso_parse (str "yesterday") = None.
Proof. repeat split; reflexivity. Qed.

(** The scenario of the two gists: the stored order is ["2"; "1"]. *)
Example render_two_gists :
  let p := {| username := str "deadflowers"; filter := [] |} in
  let g1 := gist "1" "Foo Bar" "2023-01-02T00:00:00Z" in
  let g2 := gist "2" "Baz" "2023-05-01T00:00:00Z" in
  @render example_host p (Return (ok_response (VArr [g1; g2]))) data
  = Return (set_loading false (set_gists (VArr [g2; g1]) data))
  /\ @contains example_host (VStr (str "Foo Bar")) (VStr (str "foo")) = Return true
  /\ @contains example_host (VStr (str "Baz")) (VStr (str "foo")) = Return false.
Proof. repeat split; reflexivity. Qed.

(** * Properties *)

(** ** Sorting *)

Section Sorting.
Context {host : Host}.

Lemma gist_time_defined g t :
  gist_time g = Some t ->
  exists u, get_prop g "updated_at" = Return u /\ Date_new u = Return (Some t).
Proof.
  unfold gist_time. destruct (get_prop g "updated_at") as [u|e] eqn:E; simpl.
  - destruct (Date_new u) as [r|e] eqn:D; [|discriminate].
    intros ->. now exists u.
  - discriminate.
Qed.

Lemma gist_time_not_undefined g t : gist_time g = Some t -> g <> VUndefined.
Proof. intros H ->. discriminate H. Qed.

(** On gists with instants the comparator is the difference of the two. *)
Lemma by_updated_at_times a b ta tb :
  gist_time a = Some ta -> gist_time b = Some tb ->
  by_updated_at a b = Return (Some (tb - ta)).
Proof.
  intros Ha Hb.
  destruct (gist_time_defined _ _ Ha) as (ua & Ga & Da).
  destruct (gist_time_defined _ _ Hb) as (ub & Gb & Db).
  unfold by_updated_at. rewrite Gb. simpl. rewrite Db. simpl.
  rewrite Ga. simpl. rewrite Da. reflexivity.
Qed.

Lemma SortCompare_times a b ta tb :
  gist_time a = Some ta -> gist_time b = Some tb ->
  SortCompare by_updated_at a b = Return (tb - ta).
Proof.
  intros Ha Hb.
  pose proof (gist_time_not_undefined _ _ Ha) as Na.
  pose proof (gist_time_not_undefined _ _ Hb) as Nb.
  unfold SortCompare. rewrite (by_updated_at_times _ _ _ _ Ha Hb).
  destruct a; try congruence; destruct b; try congruence; reflexivity.
Qed.

Lemma valid_updated_at_time g :
  valid_updated_at g = true -> exists t, gist_time g = Some t.
Proof.
  unfold valid_updated_at. destruct (gist_time g) as [t|]; [|discriminate].
  intros _. now exists t.
Qed.

Lemma not_older_valid_l a b : not_older a b -> valid_updated_at a = true.
Proof.
  unfold not_older, valid_updated_at. destruct (gist_time a); [reflexivity|tauto].
Qed.

Lemma not_older_trans a b c : not_older a b -> not_older b c -> not_older a c.
Proof.
  unfold not_older.
  destruct (gist_time a), (gist_time b), (gist_time c); try tauto. lia.
Qed.

(** Inserting into a list sorted by recency keeps it sorted, and only adds
    the new gist. *)
Lemma sort_insert_sorted x l :
  valid_updated_at x = true ->
  Forall (fun g => valid_updated_at g = true) l ->
  StronglySorted not_older l ->
  exists l', sort_insert by_updated_at x l = Return l'
             /\ Permutation (x :: l) l'
             /\ StronglySorted not_older l'.
Proof.
  intros Hx Hl Hs. destruct (valid_updated_at_time _ Hx) as (tx & Tx).
  induction l as [|y l IH]; simpl.
  - exists [x]. repeat split; auto. constructor; constructor.
  - inversion Hl as [|? ? Hy Hl']; subst.
    inversion Hs as [|? ? Hs' Hall]; subst.
    destruct (valid_updated_at_time _ Hy) as (ty & Ty).
    rewrite (SortCompare_times _ _ _ _ Tx Ty). simpl.
    destruct (Z.leb_spec (ty - tx) 0) as [Hle|Hgt].
    + exists (x :: y :: l). repeat split; auto.
      assert (Hxy : not_older x y) by (unfold not_older; rewrite Tx, Ty; lia).
      constructor; [assumption|]. constructor; [assumption|].
      eapply Forall_impl; [|exact Hall].
      intros c Hc. eapply not_older_trans; eauto.
    + destruct (IH Hl' Hs') as (l' & E & P & S'). rewrite E. simpl.
      exists (y :: l'). repeat split.
      * rewrite perm_swap. now constructor.
      * constructor; [assumption|].
        eapply Permutation_Forall; [exact P|]. constructor; [|assumption].
        unfold not_older. rewrite Tx, Ty. lia.
Qed.

Lemma sort_elems_sorted l :
  Forall (fun g => valid_updated_at g = true) l ->
  exists l', sort_elems by_updated_at l = Return l'
             /\ Permutation l l'
             /\ StronglySorted not_older l'.
Proof.
  induction l as [|x l IH]; intros Hl; simpl.
  - exists []. repeat split; auto. constructor.
  - inversion Hl as [|? ? Hx Hl']; subst.
    destruct (IH Hl') as (s & E & P & S'). rewrite E. simpl.
    assert (Hs : Forall (fun g => valid_updated_at g = true) s)
      by (eapply Permutation_Forall; eauto).
    destruct (sort_insert_sorted x s Hx Hs S') as (l' & E' & P' & S'').
    exists l'. repeat split; auto.
    rewrite <- P'. now constructor.
Qed.

(** A list already sorted by recency is left as it is. *)
Lemma sort_elems_fixed l :
  Forall (fun g => valid_updated_at g = true) l ->
  StronglySorted not_older l ->
  sort_elems by_updated_at l = Return l.
Proof.
  intros Hl Hs. induction Hs as [|x l Hs IH Hall]; simpl; [reflexivity|].
  inversion Hl as [|? ? Hx Hl']; subst. rewrite (IH Hl'). simpl.
  destruct l as [|y l]; simpl; [reflexivity|].
  inversion Hall as [|? ? Hxy _]; subst.
  unfold not_older in Hxy.
  destruct (gist_time x) as [tx|] eqn:Tx; [|tauto].
  destruct (gist_time y) as [ty|] eqn:Ty; [|tauto].
  rewrite (SortCompare_times _ _ _ _ Tx Ty). simpl.
  destruct (Z.leb_spec (ty - tx) 0); [reflexivity|lia].
Qed.

End Sorting.

(** ** Percent-encoding and decoding *)

Ltac cases_cmp :=
  repeat match goal with
    | |- context [?a <=? ?b] => destruct (Z.leb_spec a b)
    | |- context [?a <? ?b] => destruct (Z.ltb_spec a b)
    | |- context [?a =? ?b] => destruct (Z.eqb_spec a b)
    end; cbn [andb orb negb].

Lemma hex_value_digit d : 0 <= d < 16 -> hex_value (hex_digit d) = Some d.
Proof.
  intros Hd. unfold hex_value, hex_digit, between.
  cases_cmp; try lia; f_equal; lia.
Qed.

Lemma ParseHexOctet_escape b :
  0 <= b < 256 -> ParseHexOctet (hex_digit (b / 16)) (hex_digit (b mod 16)) = Some b.
Proof.
  intros Hb. unfold ParseHexOctet.
  rewrite !hex_value_digit by (Z.div_mod_to_equations; lia).
  f_equal. Z.div_mod_to_equations; lia.
Qed.

Lemma unescaped_not_percent c : unescaped c = true -> (c =? 37) = false.
Proof.
  intros H. destruct (Z.eqb_spec c 37) as [->|]; [discriminate H|reflexivity].
Qed.

Lemma unescaped_ascii c : unescaped c = true -> 0 <= c < 128.
Proof.
  unfold unescaped, is_alpha, is_digit, is_mark, between, existsb.
  rewrite !orb_true_iff, !andb_true_iff, !Z.leb_le, !Z.eqb_eq.
  intuition (try discriminate; lia).
Qed.

Lemma escape_octets_cons b bs rest :
  escape_octets (b :: bs) ++ rest
  = 37 :: hex_digit (b / 16) :: hex_digit (b mod 16) :: (escape_octets bs ++ rest).
Proof. reflexivity. Qed.

Lemma continuation_octets_escape bs rest :
  Forall octet bs ->
  continuation_octets (List.length bs) (escape_octets bs ++ rest) = Some (bs, rest).
Proof.
  induction 1 as [|b bs Hb _ IH]; [reflexivity|].
  rewrite escape_octets_cons. cbn [List.length continuation_octets].
  rewrite Z.eqb_refl, (ParseHexOctet_escape b Hb), IH. reflexivity.
Qed.

(** Decoding an escaped ASCII octet gives the code unit back. *)
Lemma Decode_escape_ascii fuel b rest :
  0 <= b < 128 ->
  Decode (S fuel) (escape_octets [b] ++ rest)
  = (r <- Decode fuel rest ;; Return (b :: r)).
Proof.
  intros Hb. rewrite escape_octets_cons. cbn [Decode escape_octets flat_map app].
  rewrite Z.eqb_refl, ParseHexOctet_escape by lia.
  unfold leading_ones. destruct (Z.ltb_spec b 128); [reflexivity|lia].
Qed.

(** Decoding the escapes of a valid multi-octet sequence gives its code
    point, as UTF-16. *)
Lemma Decode_escape_sequence fuel b0 bs cp rest :
  Forall octet (b0 :: bs) ->
  leading_ones b0 = Z.of_nat (S (List.length bs)) ->
  (1 <= List.length bs <= 3)%nat ->
  utf8_code_point (b0 :: bs) = Some cp ->
  Decode (S fuel) (escape_octets (b0 :: bs) ++ rest)
  = (r <- Decode fuel rest ;; Return (UTF16EncodeCodePoint cp ++ r)).
Proof.
  intros Hoct Hn Hlen Hcp. inversion Hoct as [|? ? Hb0 Hbs]; subst.
  rewrite escape_octets_cons. cbn [Decode].
  rewrite Z.eqb_refl, (ParseHexOctet_escape b0 Hb0). cbv zeta. rewrite Hn.
  replace (Z.of_nat (S (List.length bs)) =? 0) with false
    by (symmetry; apply Z.eqb_neq; lia).
  replace (Z.of_nat (S (List.length bs)) =? 1) with false
    by (symmetry; apply Z.eqb_neq; lia).
  replace (4 <? Z.of_nat (S (List.length bs))) with false
    by (symmetry; apply Z.ltb_ge; lia).
  cbn [orb]. cbv iota.
  replace (Z.to_nat (Z.of_nat (S (List.length bs)) - 1)) with (List.length bs) by lia.
  rewrite (continuation_octets_escape bs rest Hbs), Hcp. reflexivity.
Qed.

Lemma utf8_two_octets cp :
  128 <= cp < 2048 ->
  let b0 := 192 + cp / 64 in
  let b1 := 128 + cp mod 64 in
  utf8_octets cp = [b0; b1] /\ Forall octet [b0; b1]
  /\ leading_ones b0 = 2 /\ utf8_code_point [b0; b1] = Some cp.
Proof.
  intros Hcp b0 b1.
  assert (H0 : 194 <= b0 < 224) by (subst b0; Z.div_mod_to_equations; lia).
  assert (H1 : 128 <= b1 < 192) by (subst b1; Z.div_mod_to_equations; lia).
  assert (E : (b0 - 192) * 64 + (b1 - 128) = cp)
    by (subst b0 b1; Z.div_mod_to_equations; lia).
  repeat split.
  - unfold utf8_octets. cases_cmp; try lia; reflexivity.
  - repeat constructor; unfold octet; lia.
  - unfold leading_ones. cases_cmp; lia.
  - unfold utf8_code_point, is_continuation, between. rewrite E.
    cases_cmp; try lia; reflexivity.
Qed.

Lemma utf8_three_octets cp :
  2048 <= cp < 65536 -> ~ (55296 <= cp <= 57343) ->
  let b0 := 224 + cp / 4096 in
  let b1 := 128 + (cp / 64) mod 64 in
  let b2 := 128 + cp mod 64 in
  utf8_octets cp = [b0; b1; b2] /\ Forall octet [b0; b1; b2]
  /\ leading_ones b0 = 3 /\ utf8_code_point [b0; b1; b2] = Some cp.
Proof.
  intros Hcp Hs b0 b1 b2.
  assert (H0 : 224 <= b0 < 240) by (subst b0; Z.div_mod_to_equations; lia).
  assert (H1 : 128 <= b1 < 192) by (subst b1; Z.div_mod_to_equations; lia).
  assert (H2 : 128 <= b2 < 192) by (subst b2; Z.div_mod_to_equations; lia).
  assert (E : (b0 - 224) * 4096 + (b1 - 128) * 64 + (b2 - 128) = cp)
    by (subst b0 b1 b2; Z.div_mod_to_equations; lia).
  repeat split.
  - unfold utf8_octets. cases_cmp; try lia; reflexivity.
  - repeat constructor; unfold octet; lia.
  - unfold leading_ones. cases_cmp; lia.
  - unfold utf8_code_point, is_continuation, between. rewrite E.
    cases_cmp; try lia; reflexivity.
Qed.

Lemma utf8_four_octets cp :
  65536 <= cp <= 1114111 ->
  let b0 := 240 + cp / 262144 in
  let b1 := 128 + (cp / 4096) mod 64 in
  let b2 := 128 + (cp / 64) mod 64 in
  let b3 := 128 + cp mod 64 in
  utf8_octets cp = [b0; b1; b2; b3] /\ Forall octet [b0; b1; b2; b3]
  /\ leading_ones b0 = 4 /\ utf8_code_point [b0; b1; b2; b3] = Some cp.
Proof.
  intros Hcp b0 b1 b2 b3.
  assert (H0 : 240 <= b0 < 245) by (subst b0; Z.div_mod_to_equations; lia).
  assert (H1 : 128 <= b1 < 192) by (subst b1; Z.div_mod_to_equations; lia).
  assert (H2 : 128 <= b2 < 192) by (subst b2; Z.div_mod_to_equations; lia).
  assert (H3 : 128 <= b3 < 192) by (subst b3; Z.div_mod_to_equations; lia).
  assert (E : (b0 - 240) * 262144 + (b1 - 128) * 4096 + (b2 - 128) * 64
              + (b3 - 128) = cp)
    by (subst b0 b1 b2 b3; Z.div_mod_to_equations; lia).
  repeat split.
  - unfold utf8_octets. cases_cmp; try lia; reflexivity.
  - repeat constructor; unfold octet; lia.
  - unfold leading_ones. cases_cmp; lia.
  - unfold utf8_code_point, is_continuation, between. rewrite E.
    cases_cmp; try lia; reflexivity.
Qed.

Lemma surrogate_pair_round_trip lead trail :
  is_leading_surrogate lead = true -> is_trailing_surrogate trail = true ->
  65536 <= surrogate_pair_to_code_point lead trail <= 1114111
  /\ UTF16EncodeCodePoint (surrogate_pair_to_code_point lead trail)
     = [lead; trail].
Proof.
  unfold is_leading_surrogate, is_trailing_surrogate, between.
  rewrite !andb_true_iff, !Z.leb_le. intros Hl Ht.
  unfold surrogate_pair_to_code_point, UTF16EncodeCodePoint.
  split; [lia|].
  destruct (Z.leb_spec ((lead - 55296) * 1024 + (trail - 56320) + 65536) 65535);
    [lia|].
  f_equal; [|f_equal]; Z.div_mod_to_equations; lia.
Qed.

Lemma Decode_unescaped fuel c rest :
  (c =? 37) = false ->
  Decode (S fuel) (c :: rest) = (r <- Decode fuel rest ;; Return (c :: r)).
Proof. intros H. cbn [Decode]. now rewrite H. Qed.

Lemma hex_digit_unescaped d : 0 <= d < 16 -> unescaped (hex_digit d) = true.
Proof.
  intros Hd. unfold unescaped, is_alpha, is_digit, hex_digit, between.
  destruct (Z.ltb_spec d 10).
  - replace ((48 <=? 48 + d) && (48 + d <=? 57)) with true; [now rewrite orb_true_r|].
    symmetry. apply andb_true_iff. split; apply Z.leb_le; lia.
  - replace ((65 <=? 55 + d) && (55 + d <=? 90)) with true; [reflexivity|].
    symmetry. apply andb_true_iff. split; apply Z.leb_le; lia.
Qed.

Lemma escape_octets_safe bs : Forall octet bs -> Forall uri_safe (escape_octets bs).
Proof.
  induction 1 as [|b bs Hb _ IH]; [constructor|].
  change (escape_octets (b :: bs))
    with (37 :: hex_digit (b / 16) :: hex_digit (b mod 16) :: escape_octets bs).
  unfold octet in Hb.
  constructor; [now right|].
  constructor; [left; apply hex_digit_unescaped; Z.div_mod_to_equations; lia|].
  constructor; [left; apply hex_digit_unescaped; Z.div_mod_to_equations; lia|].
  exact IH.
Qed.

(** The round trip on well-formed strings: [Encode] succeeds, its output is
    made of unreserved characters and escapes, and [Decode] returns the
    input whenever its fuel covers the encoded length. *)
Lemma Encode_Decode n : forall s,
  (List.length s <= n)%nat -> code_units s = true -> well_formed s = true ->
  exists e, Encode s = Return e
            /\ Forall uri_safe e
            /\ forall fuel, (List.length e <= fuel)%nat -> Decode fuel e = Return s.
Proof.
  assert (Hnil : exists e, Encode [] = Return e /\ Forall uri_safe e
            /\ forall fuel, (List.length e <= fuel)%nat -> Decode fuel e = Return []).
  { exists []. split; [reflexivity|]. split; [constructor|].
    intros [|fuel] _; reflexivity. }
  induction n as [|n IH]; intros [|c rest] Hlen Hcu Hwf; try exact Hnil;
    [simpl in Hlen; lia|]. clear Hnil.
  cbn [code_units forallb] in Hcu. apply andb_prop in Hcu as [Hc Hrest].
  apply andb_prop in Hc as [Hc0 Hc1]. apply Z.leb_le in Hc0. apply Z.ltb_lt in Hc1.
  fold (code_units rest) in Hrest. simpl in Hlen.
  cbn [Encode well_formed] in *.
  destruct (unescaped c) eqn:Hun.
  - (* an unreserved character stands for itself *)
    pose proof (unescaped_ascii c Hun) as Hascii.
    assert (Hl : is_leading_surrogate c = false)
      by (unfold is_leading_surrogate, between; apply andb_false_iff; left;
          apply Z.leb_gt; lia).
    rewrite Hl in Hwf. apply andb_prop in Hwf as [_ Hwf].
    destruct (IH rest ltac:(lia) Hrest Hwf) as (e & He & Hsafe & Hdec).
    rewrite He. exists (c :: e). repeat split.
    + constructor; [now left|assumption].
    + intros [|fuel] Hf; [simpl in Hf; lia|].
      rewrite Decode_unescaped by now apply unescaped_not_percent.
      rewrite Hdec by (simpl in Hf; lia). reflexivity.
  - destruct (is_leading_surrogate c) eqn:Hl.
    + (* a surrogate pair: four octets *)
      destruct rest as [|c2 rest']; [discriminate|].
      apply andb_prop in Hwf as [Ht Hwf]. rewrite Ht.
      cbn [code_units forallb] in Hrest. apply andb_prop in Hrest as [_ Hrest'].
      fold (code_units rest') in Hrest'. simpl in Hlen.
      destruct (IH rest' ltac:(lia) Hrest' Hwf) as (e & He & Hsafe & Hdec).
      rewrite He.
      destruct (surrogate_pair_round_trip c c2 Hl Ht) as [Hcp Hutf16].
      destruct (utf8_four_octets _ Hcp) as (Hoct & Hb & Hn & Hback).
      rewrite Hoct. eexists. split; [reflexivity|]. split.
      * apply Forall_app. split; [now apply escape_octets_safe|assumption].
      * intros [|fuel] Hf; [simpl in Hf; lia|].
        rewrite (Decode_escape_sequence fuel _ _ _ e Hb Hn ltac:(simpl; lia) Hback).
        rewrite Hdec by (simpl in Hf; lia).
        simpl bind. rewrite Hutf16. reflexivity.
    + destruct (is_trailing_surrogate c) eqn:Ht; [discriminate|].
      simpl in Hwf.
      destruct (IH rest ltac:(lia) Hrest Hwf) as (e & He & Hsafe & Hdec).
      rewrite He.
      assert (Hns : ~ (55296 <= c <= 57343)).
      { unfold is_leading_surrogate, is_trailing_surrogate, between in Hl, Ht.
        apply andb_false_iff in Hl, Ht. rewrite !Z.leb_gt in Hl, Ht. lia. }
      assert (Hbmp : UTF16EncodeCodePoint c = [c])
        by (unfold UTF16EncodeCodePoint; destruct (Z.leb_spec c 65535);
            [reflexivity|lia]).
      destruct (Z.lt_ge_cases c 128) as [H1|H1];
        [|destruct (Z.lt_ge_cases c 2048) as [H2|H2]].
      * (* a reserved ASCII character: one octet *)
        assert (Hoct : utf8_octets c = [c])
          by (unfold utf8_octets; destruct (Z.ltb_spec c 128); [reflexivity|lia]).
        rewrite Hoct. eexists. split; [reflexivity|]. split.
        -- apply Forall_app. split; [|assumption].
           apply escape_octets_safe. repeat constructor; unfold octet; lia.
        -- intros [|fuel] Hf; [simpl in Hf; lia|].
           rewrite Decode_escape_ascii by lia.
           rewrite Hdec by (simpl in Hf; lia). reflexivity.
      * (* two octets *)
        destruct (utf8_two_octets c ltac:(lia)) as (Hoct & Hb & Hn & Hback).
        rewrite Hoct. eexists. split; [reflexivity|]. split.
        -- apply Forall_app. split; [now apply escape_octets_safe|assumption].
        -- intros [|fuel] Hf; [simpl in Hf; lia|].
           rewrite (Decode_escape_sequence fuel _ _ _ e Hb Hn ltac:(simpl; lia) Hback).
           rewrite Hdec by (simpl in Hf; lia).
           simpl bind. rewrite Hbmp. reflexivity.
      * (* three octets *)
        destruct (utf8_three_octets c ltac:(lia) Hns) as (Hoct & Hb & Hn & Hback).
        rewrite Hoct. eexists. split; [reflexivity|]. split.
        -- apply Forall_app. split; [now apply escape_octets_safe|assumption].
        -- intros [|fuel] Hf; [simpl in Hf; lia|].
           rewrite (Decode_escape_sequence fuel _ _ _ e Hb Hn ltac:(simpl; lia) Hback).
           rewrite Hdec by (simpl in Hf; lia).
           simpl bind. rewrite Hbmp. reflexivity.
Qed.

(** An unpaired surrogate makes [encodeURIComponent] throw. *)
Lemma Encode_ill_formed s : well_formed s = false -> Encode s = Throw URIError.
Proof.
  assert (G : forall n s, (List.length s <= n)%nat ->
                          well_formed s = false -> Encode s = Throw URIError).
  { clear s. induction n as [|n IH]; intros [|c rest] Hlen Hwf;
      try discriminate; simpl in Hlen; [lia|].
    cbn [Encode well_formed] in *.
    destruct (unescaped c) eqn:Hun.
    - pose proof (unescaped_ascii c Hun) as Hascii.
      assert (Hl : is_leading_surrogate c = false)
        by (unfold is_leading_surrogate, between; apply andb_false_iff; left;
            apply Z.leb_gt; lia).
      assert (Ht : is_trailing_surrogate c = false)
        by (unfold is_trailing_surrogate, between; apply andb_false_iff; left;
            apply Z.leb_gt; lia).
      rewrite Hl, Ht in Hwf. simpl in Hwf.
      now rewrite (IH rest ltac:(lia) Hwf).
    - destruct (is_leading_surrogate c).
      + destruct rest as [|c2 rest']; [reflexivity|].
        destruct (is_trailing_surrogate c2); [|reflexivity].
        simpl in Hwf, Hlen. now rewrite (IH rest' ltac:(lia) Hwf).
      + destruct (is_trailing_surrogate c); [reflexivity|].
        simpl in Hwf. now rewrite (IH rest ltac:(lia) Hwf). }
  intros Hwf. now apply (G (List.length s)).
Qed.

(** An empty [sinceDate] is falsy: no [since] parameter is appended. *)
Lemma gistsApiUrl_empty_since u l : gistsApiUrl u l (Some []) = gistsApiUrl u l None.
Proof. reflexivity. Qed.

(** A [sinceDate] with an unpaired surrogate makes the builder throw. *)
Lemma gistsApiUrl_ill_formed_since u l c rest :
  well_formed (c :: rest) = false ->
  gistsApiUrl u l (Some (c :: rest)) = Throw URIError.
Proof.
  intros Hwf. unfold gistsApiUrl, encodeURIComponent.
  now rewrite (Encode_ill_formed _ Hwf).
Qed.

(** ** Decimal numerals *)

Lemma digits_from_value fuel : forall n acc a,
  0 <= n < 10 ^ Z.of_nat fuel ->
  exists k, 0 <= k
            /\ number_of a (digits_from fuel n acc) = number_of (a * 10 ^ k + n) acc.
Proof.
  induction fuel as [|fuel IH]; intros n acc a Hn.
  - exists 0. split; [lia|]. simpl in *. f_equal. lia.
  - cbn [digits_from]. cbv zeta.
    assert (Hdig : is_digit (48 + n mod 10) = true).
    { unfold is_digit, between. apply andb_true_iff.
      split; apply Z.leb_le; Z.div_mod_to_equations; lia. }
    destruct (Z.ltb_spec n 10) as [Hlt|Hge].
    + exists 1. split; [lia|]. cbn [number_of]. rewrite Hdig.
      f_equal. rewrite Z.mod_small by lia. lia.
    + assert (Hq : 0 <= n / 10 < 10 ^ Z.of_nat fuel).
      { rewrite Nat2Z.inj_succ, Z.pow_succ_r in Hn by lia.
        Z.div_mod_to_equations; lia. }
      destruct (IH (n / 10) ((48 + n mod 10) :: acc) a Hq) as (k & Hk & E).
      exists (k + 1). split; [lia|]. rewrite E. cbn [number_of]. rewrite Hdig.
      f_equal. rewrite Z.pow_add_r by lia.
      Z.div_mod_to_equations; lia.
Qed.

Lemma digits_from_digits fuel : forall n acc,
  0 <= n -> forallb is_digit acc = true ->
  forallb is_digit (digits_from fuel n acc) = true.
Proof.
  induction fuel as [|fuel IH]; intros n acc Hn Hacc; [exact Hacc|].
  cbn [digits_from]. cbv zeta.
  assert (Hdig : is_digit (48 + n mod 10) = true).
  { unfold is_digit, between. apply andb_true_iff.
    split; apply Z.leb_le; Z.div_mod_to_equations; lia. }
  destruct (n <? 10).
  - cbn [forallb]. now rewrite Hdig.
  - apply IH; [Z.div_mod_to_equations; lia|]. cbn [forallb]. now rewrite Hdig.
Qed.

(** A non-negative integer prints as decimal digits that read back as it. *)
Lemma Number_toString_decimal n :
  0 <= n ->
  forallb is_digit (Number_toString n) = true
  /\ number_of 0 (Number_toString n) = Some n.
Proof.
  intros Hn. unfold Number_toString.
  destruct (Z.ltb_spec n 0); [lia|]. unfold decimal. split.
  - now apply digits_from_digits.
  - assert (Hb : 0 <= n < 10 ^ Z.of_nat (S (Z.to_nat (Z.log2 n)))).
    { split; [lia|].
      rewrite Nat2Z.inj_succ, Z2Nat.id by apply Z.log2_nonneg.
      destruct (Z.eq_dec n 0) as [->|Hnz]; [reflexivity|].
      apply Z.lt_le_trans with (2 ^ Z.succ (Z.log2 n)).
      - apply Z.log2_spec. lia.
      - apply Z.pow_le_mono_l. lia. }
    destruct (digits_from_value _ n [] 0 Hb) as (k & _ & E).
    rewrite E. reflexivity.
Qed.

(** ** The shape of the URL *)

Lemma lacks_app sep a b : lacks sep (a ++ b) = lacks sep a && lacks sep b.
Proof. apply forallb_app. Qed.

Lemma break_at_sep sep a b :
  lacks sep a = true -> break_at sep (a ++ sep :: b) = (a, Some b).
Proof.
  induction a as [|c a IH]; simpl; intros H.
  - now rewrite Z.eqb_refl.
  - apply andb_prop in H as [Hc Ha]. apply negb_true_iff in Hc.
    rewrite Hc, (IH Ha). reflexivity.
Qed.

Lemma break_at_none sep a : lacks sep a = true -> break_at sep a = (a, None).
Proof.
  induction a as [|c a IH]; simpl; intros H; [reflexivity|].
  apply andb_prop in H as [Hc Ha]. apply negb_true_iff in Hc.
  rewrite Hc, (IH Ha). reflexivity.
Qed.

Lemma split_on_sep sep a b :
  lacks sep a = true -> split_on sep (a ++ sep :: b) = a :: split_on sep b.
Proof.
  induction a as [|c a IH]; simpl; intros H.
  - now rewrite Z.eqb_refl.
  - apply andb_prop in H as [Hc Ha]. apply negb_true_iff in Hc.
    rewrite Hc, (IH Ha). reflexivity.
Qed.

Lemma split_on_none sep a : lacks sep a = true -> split_on sep a = [a].
Proof.
  induction a as [|c a IH]; simpl; intros H; [reflexivity|].
  apply andb_prop in H as [Hc Ha]. apply negb_true_iff in Hc.
  rewrite Hc, (IH Ha). reflexivity.
Qed.

Lemma lacks_weaken (P : Z -> bool) sep s :
  (forall c, P c = true -> c <> sep) -> forallb P s = true -> lacks sep s = true.
Proof.
  intros HP H. unfold lacks. rewrite forallb_forall in *.
  intros c Hc. apply negb_true_iff, Z.eqb_neq, HP, H, Hc.
Qed.

Lemma is_digit_range c : is_digit c = true -> 48 <= c <= 57.
Proof. unfold is_digit, between. rewrite andb_true_iff, !Z.leb_le. tauto. Qed.

Lemma is_alpha_range c : is_alpha c = true -> 65 <= c <= 90 \/ 97 <= c <= 122.
Proof.
  unfold is_alpha, between. rewrite orb_true_iff, !andb_true_iff, !Z.leb_le. tauto.
Qed.

Lemma digits_lack sep s :
  ~ (48 <= sep <= 57) -> forallb is_digit s = true -> lacks sep s = true.
Proof.
  intros Hsep. apply lacks_weaken. intros c Hc. apply is_digit_range in Hc. lia.
Qed.

Lemma username_lacks sep u :
  In sep [35; 38; 61; 63] -> valid_username u = true -> lacks sep u = true.
Proof.
  intros Hsep. unfold valid_username. destruct u as [|c u]; [discriminate|].
  apply lacks_weaken. intros x Hx.
  apply orb_prop in Hx as [Hx|Hx]; [apply orb_prop in Hx as [Hx|Hx]|].
  - apply is_alpha_range in Hx. simpl in Hsep. lia.
  - apply is_digit_range in Hx. simpl in Hsep. lia.
  - apply Z.eqb_eq in Hx. simpl in Hsep. lia.
Qed.

(** The URL without a timestamp, for a username free of [?] and [#] and a
    numeral, has exactly the one parameter [per_page]. *)
Lemma query_params_per_page u v :
  lacks 63 u = true -> lacks 35 u = true -> forallb is_digit v = true ->
  query_params (str "https://api.github.com/users/" ++ u
                ++ str "/gists?per_page=" ++ v)
  = [(str "per_page", v)].
Proof.
  intros Hq Hf Hv. unfold query_params.
  change (str "/gists?per_page=") with (str "/gists" ++ 63 :: str "per_page=").
  rewrite (break_at_none 35).
  2:{ rewrite !lacks_app. cbn [lacks forallb].
      fold (lacks 35 u). fold (lacks 35 v).
      rewrite Hf, (digits_lack 35 v); simpl; auto; lia. }
  cbn [fst].
  replace (str "https://api.github.com/users/" ++ u
           ++ (str "/gists" ++ 63 :: str "per_page=") ++ v)
    with ((str "https://api.github.com/users/" ++ u ++ str "/gists")
          ++ 63 :: (str "per_page=" ++ v))
    by (rewrite <- !app_assoc; reflexivity).
  rewrite break_at_sep.
  2:{ rewrite !lacks_app. rewrite Hq. reflexivity. }
  cbn [snd].
  rewrite split_on_none.
  2:{ rewrite lacks_app. rewrite (digits_lack 38 v); [reflexivity|lia|assumption]. }
  cbn [map].
  change (str "per_page=" ++ v) with (str "per_page" ++ 61 :: v).
  rewrite break_at_sep by reflexivity. reflexivity.
Qed.

Lemma uri_safe_lacks sep e :
  In sep [35; 38; 61; 63] -> Forall uri_safe e -> lacks sep e = true.
Proof.
  intros Hsep He. unfold lacks. apply forallb_forall. intros c Hc.
  rewrite Forall_forall in He. apply negb_true_iff, Z.eqb_neq.
  destruct (He c Hc) as [Hu | ->]; [|simpl in Hsep; lia].
  intros ->. simpl in Hsep.
  destruct Hsep as [<-|[<-|[<-|[<-|[]]]]]; discriminate Hu.
Qed.

(** With a timestamp, the URL has the two parameters [per_page] and
    [since], the latter holding the escaped text. *)
Lemma query_params_since u v e :
  lacks 63 u = true -> lacks 35 u = true ->
  forallb is_digit v = true -> Forall uri_safe e ->
  query_params ((str "https://api.github.com/users/" ++ u
                 ++ str "/gists?per_page=" ++ v) ++ str "&since=" ++ e)
  = [(str "per_page", v); (str "since", e)].
Proof.
  intros Hq Hf Hv He. unfold query_params.
  change (str "/gists?per_page=") with (str "/gists" ++ 63 :: str "per_page=").
  rewrite (break_at_none 35).
  2:{ rewrite !lacks_app. cbn [lacks forallb].
      fold (lacks 35 u). fold (lacks 35 v). fold (lacks 35 e).
      rewrite Hf, (digits_lack 35 v), (uri_safe_lacks 35 e);
        simpl; auto; lia. }
  cbn [fst].
  replace ((str "https://api.github.com/users/" ++ u
            ++ (str "/gists" ++ 63 :: str "per_page=") ++ v) ++ str "&since=" ++ e)
    with ((str "https://api.github.com/users/" ++ u ++ str "/gists")
          ++ 63 :: ((str "per_page=" ++ v) ++ 38 :: (str "since=" ++ e)))
    by (rewrite <- !app_assoc; reflexivity).
  rewrite break_at_sep.
  2:{ rewrite !lacks_app. rewrite Hq. reflexivity. }
  cbn [snd].
  rewrite split_on_sep.
  2:{ rewrite lacks_app. rewrite (digits_lack 38 v); [reflexivity|lia|assumption]. }
  rewrite split_on_none.
  2:{ rewrite lacks_app. rewrite (uri_safe_lacks 38 e); simpl; auto. }
  cbn [map].
  change (str "per_page=" ++ v) with (str "per_page" ++ 61 :: v).
  change (str "since=" ++ e) with (str "since" ++ 61 :: e).
  rewrite !break_at_sep by reflexivity. reflexivity.
Qed.

(** Strings over the ISO 8601 alphabet are non-empty, 16-bit and free of
    surrogates: the builder accepts every timestamp. *)
Lemma timestamp_shape_accepted ts :
  timestamp_shape ts = true ->
  ts <> [] /\ code_units ts = true /\ well_formed ts = true.
Proof.
  intros H.
  assert (Hne : ts <> []) by (intros ->; discriminate H).
  assert (H' : forallb (fun c => is_digit c
                          || existsb (Z.eqb c) [45; 58; 46; 43; 84; 90]) ts = true)
    by (destruct ts; [congruence|exact H]).
  clear H. rename H' into H.
  assert (Hascii : Forall (fun c => 0 <= c < 128) ts).
  { apply Forall_forall. intros c Hc.
    rewrite forallb_forall in H. specialize (H c Hc).
    apply orb_prop in H as [H|H]; [apply is_digit_range in H; lia|].
    cbn [existsb] in H. rewrite !orb_true_iff, !Z.eqb_eq in H.
    intuition (try discriminate; lia). }
  split; [exact Hne|].
  clear H Hne. induction Hascii as [|c s Hc _ [IH1 IH2]]; [now split|].
  cbn [code_units well_formed forallb]. fold (code_units s).
    rewrite IH1, IH2.
    unfold is_leading_surrogate, is_trailing_surrogate, between.
    replace (0 <=? c) with true by (symmetry; apply Z.leb_le; lia).
    replace (c <? 65536) with true by (symmetry; apply Z.ltb_lt; lia).
    replace (55296 <=? c) with false by (symmetry; apply Z.leb_gt; lia).
    replace (56320 <=? c) with false by (symmetry; apply Z.leb_gt; lia).
    now split.
Qed.


(** For a GitHub login and a non-negative limit, the URL built with a
    timestamp parses to the two parameters [per_page] and [since], and the
    value of [since] decodes to the timestamp. *)
Corollary since_parameter_in_query (u : jsstring) (l : Z) (ts : jsstring) :
  valid_username u = true -> 0 <= l ->
  ts <> [] -> code_units ts = true -> well_formed ts = true ->
  exists url e,
    gistsApiUrl u (Some l) (Some ts) = Return url
    /\ query_params url = [(str "per_page", Number_toString l); (str "since", e)]
    /\ decodeURIComponent e = Return ts.
Proof.
  intros Hu Hl Hne Hcu Hwf.
  destruct (Encode_Decode (List.length ts) ts (le_n _) Hcu Hwf)
    as (e & He & Hsafe & Hdec).
  destruct (Number_toString_decimal l Hl) as [Hdig _].
  eexists. exists e. split; [|split].
  - unfold gistsApiUrl, encodeURIComponent.
    destruct ts as [|c ts]; [congruence|]. rewrite He. reflexivity.
  - apply query_params_since; try assumption.
    + apply (username_lacks 63 u); [simpl; auto|assumption].
    + apply (username_lacks 35 u); [simpl; auto|assumption].
  - now apply Hdec.
Qed.


(** The parameters of the URL, with and without a timestamp: [per_page]
    comes first and holds the numeral of the limit; [since] follows exactly
    when a non-empty timestamp is given, and decodes to it. *)
Lemma gistsApiUrl_query u limit sinceDate :
  lacks 63 u = true -> lacks 35 u = true -> 0 <= effective_limit limit ->
  accepted_since sinceDate = true ->
  exists url,
    gistsApiUrl u limit sinceDate = Return url
    /\ match sinceDate with
       | Some ((_ :: _) as ts) =>
           exists e,
             query_params url
             = [(str "per_page", Number_toString (effective_limit limit));
                (str "since", e)]
             /\ decodeURIComponent e = Return ts
       | _ =>
           query_params url
           = [(str "per_page", Number_toString (effective_limit limit))]
       end.
Proof.
  intros Hq Hf Hl Hacc.
  destruct (Number_toString_decimal _ Hl) as [Hdig _].
  set (base := str "https://api.github.com/users/" ++ u
               ++ str "/gists?per_page=" ++ Number_toString (effective_limit limit)).
  assert (Hbase : query_params base
                  = [(str "per_page", Number_toString (effective_limit limit))])
    by now apply query_params_per_page.
  destruct sinceDate as [[|c ts]|].
  - exists base. split; [now destruct limit|exact Hbase].
  - cbn [accepted_since] in Hacc. apply andb_prop in Hacc as [Hcu Hwf].
    destruct (Encode_Decode _ (c :: ts) (le_n _) Hcu Hwf) as (e & He & Hsafe & Hdec).
    exists (base ++ str "&since=" ++ e). split.
    + unfold gistsApiUrl, encodeURIComponent. rewrite He. now destruct limit.
    + exists e. split; [now apply query_params_since|now apply Hdec].
  - exists base. split; [now destruct limit|exact Hbase].
Qed.

(** C8: for every valid username and every limit from 1 to 100, whether a
    timestamp is given or not, the URL has a [per_page] parameter, its first
    and its only one of that name, whose value is the decimal numeral of the
    limit; and when no timestamp is given it is the only parameter, so the
    URL has no [since] parameter. *)
Theorem per_page_is_limit (u : jsstring) (l : Z) (sinceDate : option jsstring) :
  valid_username u = true -> 1 <= l <= 100 ->
  accepted_since sinceDate = true ->
  exists url,
    gistsApiUrl u (Some l) sinceDate = Return url
    /\ (exists rest,
          query_params url = (str "per_page", Number_toString l) :: rest
          /\ ~ In (str "per_page") (map fst rest))
    /\ number_of 0 (Number_toString l) = Some l
    /\ (sinceDate = None ->
        query_params url = [(str "per_page", Number_toString l)]
        /\ ~ In (str "since") (map fst (query_params url))).
Proof.
  intros Hu Hl Hacc.
  destruct (gistsApiUrl_query u (Some l) sinceDate
              (username_lacks 63 u ltac:(simpl; auto) Hu)
              (username_lacks 35 u ltac:(simpl; auto) Hu)
              ltac:(simpl; lia) Hacc) as (url & Hurl & Hq).
  cbn [effective_limit] in Hq.
  exists url. split; [exact Hurl|]. split; [|split].
  - destruct sinceDate as [[|c ts]|].
    + exists []. split; [exact Hq|]. intros [].
    + destruct Hq as (e & Hq & _). exists [(str "since", e)].
      split; [exact Hq|]. intros [H|[]]. discriminate H.
    + exists []. split; [exact Hq|]. intros [].
  - apply Number_toString_decimal. lia.
  - intros ->. split; [exact Hq|]. rewrite Hq. intros [H|[]]. discriminate H.
Qed.

(** An instance of C8: the call made by [render], with the threshold of
    [data] as the timestamp. *)
Lemma per_page_is_limit_witness :
  let u := str "deadflowers" in
  let since := Some (str "2022-01-01T00:00:00Z") in
  (valid_username u = true /\ 1 <= 100 <= 100 /\ accepted_since since = true)
  /\ exists url,
       gistsApiUrl u (Some 100) since = Return url
       /\ (exists rest,
             query_params url = (str "per_page", Number_toString 100) :: rest
             /\ ~ In (str "per_page") (map fst rest))
       /\ number_of 0 (Number_toString 100) = Some 100
       /\ (since = None ->
           query_params url = [(str "per_page", Number_toString 100)]
           /\ ~ In (str "since") (map fst (query_params url))).
Proof.
  intros u since.
  assert (H1 : valid_username u = true) by reflexivity.
  assert (H2 : 1 <= 100 <= 100) by lia.
  assert (H3 : accepted_since since = true) by reflexivity.
  split; [auto|].
  exact (per_page_is_limit u 100 since H1 H2 H3).
Defined.

(** C10: the builder embeds the username and the limit as they are: without
    a timestamp the URL is the literal concatenation of the prefix, the
    username, ["/gists?per_page="] and the limit's numeral.  A username with
    URL metacharacters therefore changes the path and the query: for
    ["x/y?z& w"] the path ends at [x/y] and the parameters are [z] and
    [" w/gists?per_page"]. *)
Theorem username_embedded_verbatim (u : jsstring) (l : Z) :
  gistsApiUrl u (Some l) None
  = Return (str "https://api.github.com/users/" ++ u
            ++ str "/gists?per_page=" ++ Number_toString l)
  /\ exists url,
       gistsApiUrl (str "x/y?z& w") (Some 100) None = Return url
       /\ url = str "https://api.github.com/users/x/y?z& w/gists?per_page=100"
       /\ url_path url = str "https://api.github.com/users/x/y"
       /\ query_params url = [(str "z", []); (str " w/gists?per_page", str "100")].
Proof.
  split; [reflexivity|]. eexists. repeat split; reflexivity.
Qed.

(** ** The filter predicate *)

Lemma starts_with_prefix p s :
  starts_with p s = true <-> exists post, s = p ++ post.
Proof.
  revert s. induction p as [|a p IH]; intros s; simpl.
  - split; [intros _; now exists s|reflexivity].
  - destruct s as [|b s].
    + split; [discriminate|]. intros (post & H). discriminate H.
    + rewrite andb_true_iff, Z.eqb_eq, IH. split.
      * intros (-> & post & ->). now exists post.
      * intros (post & H). injection H as -> ->. split; [reflexivity|now exists post].
Qed.

(** [includes] decides the occurrence of a substring. *)
Lemma includes_substring s p : includes s p = true <-> substring_of p s.
Proof.
  unfold substring_of. induction s as [|c s IH]; simpl.
  - rewrite orb_false_r, starts_with_prefix. split.
    + intros (post & H). now exists [], post.
    + intros (pre & post & H).
      symmetry in H. apply app_eq_nil in H as [-> H].
      apply app_eq_nil in H as [-> ->]. now exists [].
  - rewrite orb_true_iff, starts_with_prefix, IH. split.
    + intros [(post & H)|(pre & post & H)].
      * now exists [], post.
      * exists (c :: pre), post. now rewrite H.
    + intros ([|x pre] & post & H).
      * left. now exists post.
      * right. injection H as -> ->. now exists pre, post.
Qed.

Lemma substring_of_prefix p post : substring_of p (p ++ post).
Proof. now exists [], post. Qed.

Lemma substring_of_refl p : substring_of p p.
Proof. exists [], []. now rewrite app_nil_r. Qed.

Lemma substring_of_app_r p a s : substring_of p s -> substring_of p (a ++ s).
Proof.
  intros (pre & post & ->). exists (a ++ pre), post. now rewrite app_assoc.
Qed.

Lemma substring_of_empty p : substring_of p [] -> p = [].
Proof.
  intros (pre & post & H). symmetry in H.
  apply app_eq_nil in H as [_ H]. now apply app_eq_nil in H as [H _].
Qed.

(** Finds [p] among the operands of a right-nested concatenation. *)
Ltac occurs :=
  first [ apply substring_of_refl
        | apply substring_of_prefix
        | apply substring_of_app_r; occurs ].

Section Filter.
Context {host : Host}.

Lemma contains_includes d f :
  contains d (VStr f)
  = Return (includes (toLowerCase (description_text d)) (toLowerCase f)).
Proof.
  assert (Hempty : forall s, includes s (toLowerCase []) = true).
  { intros s. rewrite toLowerCase_empty. now destruct s. }
  assert (Hnone : forall c f', includes (toLowerCase []) (toLowerCase (c :: f')) = false).
  { intros c f'. rewrite toLowerCase_empty.
    destruct (toLowerCase (c :: f')) eqn:E; [|reflexivity].
    apply toLowerCase_nonempty in E. discriminate E. }
  destruct f as [|c f]; [cbn [contains]; now rewrite Hempty|].
  destruct d as [| |[]|n|[|x s]|elems|props]; cbn [contains truthy description_text negb];
    try reflexivity; try (now rewrite Hnone).
  destruct (n =? 0); cbn [negb]; [reflexivity|now rewrite Hnone].
Qed.

(** C4: for every description value and every filter string, [contains]
    returns (it never throws), and returns [true] exactly when the
    lower-cased filter occurs in the lower-cased description, a description
    that is not a string counting as the empty string; with the empty filter
    it returns [true]. *)
Theorem contains_case_insensitive_substring (d : value) (f : jsstring) :
  exists b,
    contains d (VStr f) = Return b
    /\ (b = true
        <-> substring_of (toLowerCase f) (toLowerCase (description_text d)))
    /\ contains d (VStr []) = Return true.
Proof.
  exists (includes (toLowerCase (description_text d)) (toLowerCase f)).
  split; [apply contains_includes|]. split; [apply includes_substring|reflexivity].
Qed.

End Filter.

Example contains_examples :
  @contains example_host VNull (VStr (str "a")) = Return false
  /\ @contains example_host VUndefined (VStr []) = Return true
  /\ @contains example_host (VNum 42) (VStr (str "4")) = Return false
  /\ @contains example_host (VStr (str "Hello World")) (VStr (str "LO wo")) = Return true
  /\ @contains example_host (VObj []) (VStr (str "object")) = Return false.
Proof. repeat split; reflexivity. Qed.

(** ** The fetcher and the controller *)

Lemma Error_toString_message msg :
  msg <> [] -> Error_toString (mkError (str "Error") msg) = str "Error: " ++ msg.
Proof. destruct msg; [congruence|reflexivity]. Qed.

(** [Error.prototype.toString] always shows the message. *)
Lemma Error_toString_shows_message e : substring_of (message e) (Error_toString e).
Proof.
  destruct e as [nm msg]. unfold Error_toString. cbn [name message].
  destruct nm as [|c nm]; [apply substring_of_refl|].
  destruct msg as [|x msg]; [now exists [], (c :: nm)|]. occurs.
Qed.

Section Controller.
Context {host : Host}.

Lemma requestJson_not_ok url resp :
  ok resp = false ->
  requestJson url (Return resp)
  = Throw (mkError (str "Error") (http_error_message url resp)).
Proof. intros H. unfold requestJson. cbn [bind]. now rewrite H. Qed.

Lemma render_settle_failure url fetched d err :
  fetch_and_sort url fetched = Throw err ->
  render_settle url fetched d
  = set_loading false
      (set_errorMsg (str "Unable to fetch Gists API data. Error: "
                     ++ Error_toString err)
         (set_errored true (set_gists VNull d))).
Proof. intros H. unfold render_settle. now rewrite H. Qed.

Lemma render_settle_success url fetched d v :
  fetch_and_sort url fetched = Return v ->
  render_settle url fetched d = set_loading false (set_gists v d).
Proof. intros H. unfold render_settle. now rewrite H. Qed.

(** C6: for every response with a non-success status, [requestJson] throws
    an [Error] whose message contains the status code, the status text, the
    request URL and the body text; the controller then ends errored, not
    loading, with a stored message containing the same four; for status 404
    and body ["Not Found"] that message contains ["404"] and ["Not Found"]. *)
Theorem http_failure_is_reported (url : jsstring) (resp : Response) (d : Data) :
  ok resp = false ->
  exists msg,
    requestJson url (Return resp) = Throw (mkError (str "Error") msg)
    /\ (substring_of (Number_toString (status resp)) msg
        /\ substring_of (statusText resp) msg
        /\ substring_of url msg
        /\ substring_of (text resp) msg)
    /\ let d' := render_settle url (Return resp) d in
       errored d' = true /\ loading d' = false /\ gists d' = VNull
       /\ substring_of msg (errorMsg d')
       /\ (status resp = 404 -> text resp = str "Not Found" ->
           substring_of (str "404") (errorMsg d')
           /\ substring_of (str "Not Found") (errorMsg d')).
Proof.
  intros Hok. exists (http_error_message url resp).
  split; [now apply requestJson_not_ok|]. split.
  - unfold http_error_message. repeat split; occurs.
  - assert (Hthrow : fetch_and_sort url (Return resp)
                     = Throw (mkError (str "Error") (http_error_message url resp))).
    { unfold fetch_and_sort. now rewrite requestJson_not_ok. }
    cbv zeta. rewrite (render_settle_failure _ _ _ _ Hthrow).
    cbn [errored loading gists errorMsg set_loading set_errorMsg set_errored set_gists].
    rewrite Error_toString_message by (unfold http_error_message; discriminate).
    do 3 (split; [reflexivity|]). split; [occurs|].
    intros Hs Hb. unfold http_error_message. rewrite Hs, Hb.
    change (Number_toString 404) with (str "404"). split; occurs.
Qed.

(** *** Starting a cycle *)

Lemma gistsApiUrl_since u l ts e :
  ts <> [] -> encodeURIComponent ts = Return e ->
  gistsApiUrl u (Some l) (Some ts)
  = Return (str "https://api.github.com/users/" ++ u
            ++ str "/gists?per_page=" ++ Number_toString l
            ++ str "&since=" ++ e).
Proof.
  intros Hne He. destruct ts as [|c ts]; [congruence|].
  unfold gistsApiUrl. rewrite He. cbn [bind]. now rewrite <- !app_assoc.
Qed.

Lemma render_start_default p d :
  sinceDateThreshold d = sinceDateThreshold data ->
  render_start p d = Return (request_url p, started d).
Proof.
  intros Hts. unfold render_start. rewrite Hts.
  rewrite (gistsApiUrl_since _ _ _ (str "2022-01-01T00%3A00%3A00Z"));
    [reflexivity|discriminate|reflexivity].
Qed.

(** No transition writes the threshold. *)
Lemma reachable_threshold p ph d :
  reachable p ph d -> sinceDateThreshold d = sinceDateThreshold data.
Proof.
  induction 1 as [|d url d' _ IH Hstart|d url fetched _ IH]; [reflexivity| |].
  - rewrite (render_start_default p d IH) in Hstart.
    injection Hstart as _ <-. exact IH.
  - unfold render_settle. now destruct (fetch_and_sort url fetched).
Qed.

Lemma render_from_idle p d fetched :
  reachable p Idle d ->
  render_start p d = Return (request_url p, started d)
  /\ render p fetched d = Return (render_settle (request_url p) fetched (started d)).
Proof.
  intros Hr. pose proof (render_start_default p d (reachable_threshold _ _ _ Hr)) as E.
  split; [exact E|]. unfold render. now rewrite E.
Qed.

(** C1, as the code has it: starting a cycle from any state between cycles
    succeeds, sets [loading], resets [errored] and clears the Gist List; the
    stored error message is left as it was, and is hidden, since the
    template then shows the loading line only. *)
Theorem render_start_enters_loading (p : Props) (d : Data) :
  reachable p Idle d ->
  exists url d',
    render_start p d = Return (url, d')
    /\ loading d' = true /\ errored d' = false /\ gists d' = VNull
    /\ errorMsg d' = errorMsg d
    /\ template p d'
       = Return {| error_shown := None; loading_shown := true;
                   table_shown := false; no_match_shown := false;
                   none_found_shown := false |}.
Proof.
  intros Hr. exists (request_url p), (started d).
  split; [apply (render_from_idle p d (Throw URIError) Hr)|].
  repeat split.
Qed.

(** *** The exclusion of error and list *)

Lemma reachable_exclusive p ph d :
  reachable p ph d ->
  (errored d = true -> gists d = VNull)
  /\ (forall url, ph = Awaiting url -> errored d = false /\ gists d = VNull).
Proof.
  induction 1 as [|d url d' Hr IH Hstart|d url fetched Hr IH].
  - split; [reflexivity|discriminate].
  - rewrite (render_start_default p d (reachable_threshold _ _ _ Hr)) in Hstart.
    injection Hstart as _ <-. split; [reflexivity|]. intros _ _. now split.
  - destruct IH as [_ IH]. destruct (IH url eq_refl) as [He Hg].
    split; [|discriminate].
    unfold render_settle. destruct (fetch_and_sort url fetched); cbn; congruence.
Qed.

(** C7: in every state of the life cycle, [errored] and a populated Gist
    List never hold together; and whenever the [try] block of a cycle throws,
    the settled state is errored and not loading, its Gist List is [null],
    and its message ends with the text of the exception. *)
Theorem errored_excludes_gists (p : Props) :
  (forall ph d, reachable p ph d -> errored d && populated (gists d) = false)
  /\ (forall url fetched d err,
        fetch_and_sort url fetched = Throw err ->
        let d' := render_settle url fetched d in
        errored d' = true /\ loading d' = false /\ gists d' = VNull
        /\ errorMsg d' = str "Unable to fetch Gists API data. Error: "
                         ++ Error_toString err
        /\ substring_of (Error_toString err) (errorMsg d')
        /\ substring_of (message err) (errorMsg d')).
Proof.
  split.
  - intros ph d Hr. destruct (reachable_exclusive p ph d Hr) as [H _].
    destruct (errored d); [|reflexivity]. now rewrite H.
  - intros url fetched d err Hthrow. cbv zeta.
    rewrite (render_settle_failure _ _ _ _ Hthrow).
    cbn [errored loading gists errorMsg set_loading set_errorMsg set_errored set_gists].
    do 4 (split; [reflexivity|]). split; [occurs|].
    apply substring_of_app_r, Error_toString_shows_message.
Qed.

(** *** A body that is not an array *)

Lemma sort_gists_not_array body :
  (forall elems, body <> VArr elems) ->
  exists msg, sort_gists body = Throw (TypeError msg).
Proof.
  intros Hna. destruct body; try (eexists; reflexivity).
  now destruct (Hna elems).
Qed.

(** C9: when the response is successful and its JSON body is not an array,
    the call of [sort] throws a [TypeError] inside the [try] block, and the
    cycle settles errored, not loading, with the Gist List [null] and a
    message naming the [TypeError]. *)
Theorem non_array_body_is_an_error (url : jsstring) (resp : Response)
    (body : value) (d : Data) :
  ok resp = true -> json resp = Return body ->
  (forall elems, body <> VArr elems) ->
  exists msg,
    requestJson url (Return resp) = Return body
    /\ sort_gists body = Throw (TypeError msg)
    /\ let d' := render_settle url (Return resp) d in
       errored d' = true /\ loading d' = false /\ gists d' = VNull
       /\ errorMsg d' = str "Unable to fetch Gists API data. Error: "
                        ++ Error_toString (TypeError msg).
Proof.
  intros Hok Hjson Hna.
  destruct (sort_gists_not_array body Hna) as (msg & Hsort). exists msg.
  assert (Hreq : requestJson url (Return resp) = Return body)
    by (unfold requestJson; cbn [bind]; now rewrite Hok).
  assert (Hthrow : fetch_and_sort url (Return resp) = Throw (TypeError msg))
    by (unfold fetch_and_sort; now rewrite Hreq).
  split; [exact Hreq|]. split; [exact Hsort|]. cbv zeta.
  rewrite (render_settle_failure _ _ _ _ Hthrow). repeat split.
Qed.

(** *** The stored list *)

(** C5: when a successful response carries an array of gists whose
    [updated_at] all denote instants, the cycle stores a rearrangement of
    that array in which every gist is no older than those after it, and
    sorting the stored list again returns it unchanged. *)
Theorem stored_gists_sorted_by_recency (p : Props) (d : Data) (resp : Response)
    (elems : list value) :
  reachable p Idle d ->
  ok resp = true -> json resp = Return (VArr elems) ->
  forallb valid_updated_at elems = true ->
  exists d' sorted,
    render p (Return resp) d = Return d'
    /\ gists d' = VArr sorted /\ loading d' = false /\ errored d' = false
    /\ Permutation elems sorted
    /\ StronglySorted not_older sorted
    /\ sort_gists (VArr sorted) = Return (VArr sorted).
Proof.
  intros Hr Hok Hjson Hvalid.
  assert (Hall : Forall (fun g => valid_updated_at g = true) elems)
    by (apply Forall_forall; now apply forallb_forall).
  destruct (sort_elems_sorted elems Hall) as (sorted & Hsort & Hperm & Hsorted).
  assert (Hfetch : fetch_and_sort (request_url p) (Return resp) = Return (VArr sorted)).
  { unfold fetch_and_sort, requestJson. cbn [bind]. rewrite Hok, Hjson.
    cbn [negb bind sort_gists]. now rewrite Hsort. }
  destruct (render_from_idle p d (Return resp) Hr) as [_ Hrender].
  rewrite (render_settle_success _ _ _ _ Hfetch) in Hrender.
  eexists. exists sorted. split; [exact Hrender|].
  do 3 (split; [reflexivity|]). split; [exact Hperm|]. split; [exact Hsorted|].
  cbn [sort_gists]. rewrite sort_elems_fixed; [reflexivity| |assumption].
  eapply Permutation_Forall; eauto.
Qed.

(** *** What the template shows *)

Lemma filter_gists_length p elems kept :
  filter_gists p elems = Return kept -> (List.length kept <= List.length elems)%nat.
Proof.
  revert kept. induction elems as [|g elems IH]; intros kept; cbn [filter_gists].
  - intros H. injection H as <-. reflexivity.
  - destruct (get_prop g "description") as [desc|]; [|discriminate]. cbn [bind].
    destruct (contains desc (VStr (filter p))) as [keep|]; [|discriminate]. cbn [bind].
    destruct (filter_gists p elems) as [r|]; [|discriminate]. cbn [bind].
    intros H. injection H as <-. specialize (IH r eq_refl).
    destruct keep; simpl; lia.
Qed.

(** Rendering the table throws: the condition of its row reads a property
    of [undefined]. *)
Lemma table_block_throws p d :
  loading d = false -> truthy (gists d) = true ->
  table_block p d = Throw (TypeError "Cannot read properties of null or undefined").
Proof. intros Hl Hg. unfold table_block. now rewrite Hl, Hg. Qed.

Lemma table_block_hidden p d :
  negb (loading d) && truthy (gists d) = false -> table_block p d = Return false.
Proof. intros H. unfold table_block. now rewrite H. Qed.

(** The paragraph of the [v-else-if] is never shown: whenever its own
    condition holds, the [v-if] before it holds too. *)
Lemma none_found_never_shown p d v :
  template p d = Return v -> none_found_shown v = false.
Proof.
  unfold template. destruct (errored d).
  - intros H. now injection H as <-.
  - unfold table_block, no_match_condition, none_found_condition.
    destruct (loading d); [intros H; now injection H as <-|].
    destruct (truthy (gists d)); cbn [negb andb bind];
      [discriminate|intros H; now injection H as <-].
Qed.

(** C2, on the code: a cycle whose response is the empty array settles
    ready with an empty Gist List; rendering that state throws a [TypeError]
    at the [v-if] of the table row, so the template shows neither the table
    nor a "no results" paragraph; and of the two paragraph conditions the
    first one holds, so that "No gists found updated since" would not be
    chosen even if the row did not throw. *)
Theorem empty_result_render_throws (p : Props) (d : Data) (resp : Response) :
  reachable p Idle d ->
  ok resp = true -> json resp = Return (VArr []) ->
  exists d',
    render p (Return resp) d = Return d'
    /\ gists d' = VArr [] /\ loading d' = false /\ errored d' = false
    /\ (exists msg, template p d' = Throw (TypeError msg))
    /\ no_match_condition p d' = Return true
    /\ none_found_condition d' = true.
Proof.
  intros Hr Hok Hjson.
  assert (Hfetch : fetch_and_sort (request_url p) (Return resp) = Return (VArr [])).
  { unfold fetch_and_sort, requestJson. cbn [bind]. now rewrite Hok, Hjson. }
  destruct (render_from_idle p d (Return resp) Hr) as [_ Hrender].
  rewrite (render_settle_success _ _ _ _ Hfetch) in Hrender.
  eexists. split; [exact Hrender|]. do 3 (split; [reflexivity|]).
  split; [eexists; reflexivity|]. split; reflexivity.
Qed.

End Controller.

(** ** Concrete runs *)

Lemma failed_once_reachable :
  reachable (host := example_host) example_props Idle failed_once.
Proof.
  apply reach_settle. apply (reach_start _ data); [apply reach_created|reflexivity].
Qed.

Example failed_once_message :
  errorMsg failed_once
  = str "Unable to fetch Gists API data. Error: TypeError: Failed to fetch".
Proof. reflexivity. Qed.

(** C1 as stated does not hold: after a failed cycle, starting the next one
    leaves the stored error message in place. *)
Lemma start_keeps_error_message :
  ~ (forall (p : Props) (d : Data) (url : jsstring) (d' : Data),
        reachable (host := example_host) p Idle d ->
        render_start p d = Return (url, d') ->
        loading d' = true /\ gists d' = VNull /\ errorMsg d' = []).
Proof.
  intros H.
  destruct (H example_props failed_once _ _ failed_once_reachable eq_refl)
    as (_ & _ & Hmsg).
  discriminate Hmsg.
Qed.

(** An instance of C1 as amended: the start of a second cycle after a
    failed one. *)
Lemma render_start_enters_loading_witness :
  reachable (host := example_host) example_props Idle failed_once
  /\ exists url d',
       render_start example_props failed_once = Return (url, d')
       /\ loading d' = true /\ errored d' = false /\ gists d' = VNull
       /\ errorMsg d' = errorMsg failed_once
       /\ template (host := example_host) example_props d'
          = Return {| error_shown := None; loading_shown := true;
                      table_shown := false; no_match_shown := false;
                      none_found_shown := false |}.
Proof.
  split; [exact failed_once_reachable|].
  exact (render_start_enters_loading (host := example_host)
           example_props failed_once failed_once_reachable).
Defined.

(** An instance of C6: status 404 with the body ["Not Found"]. *)
Lemma http_failure_is_reported_witness :
  let resp := {| status := 404; statusText := []; text := str "Not Found";
                 json := Return VNull |} in
  let url := str "https://api.github.com/users/nobody/gists?per_page=100" in
  ok resp = false
  /\ exists msg,
       requestJson url (Return resp) = Throw (mkError (str "Error") msg)
       /\ (substring_of (Number_toString (status resp)) msg
           /\ substring_of (statusText resp) msg
           /\ substring_of url msg
           /\ substring_of (text resp) msg)
       /\ let d' := render_settle (host := example_host) url (Return resp) data in
          errored d' = true /\ loading d' = false /\ gists d' = VNull
          /\ substring_of msg (errorMsg d')
          /\ (status resp = 404 -> text resp = str "Not Found" ->
              substring_of (str "404") (errorMsg d')
              /\ substring_of (str "Not Found") (errorMsg d')).
Proof.
  intros resp url.
  assert (H : ok resp = false) by reflexivity.
  split; [exact H|].
  exact (http_failure_is_reported (host := example_host) url resp data H).
Defined.

(** An instance of C7: the state after a rejected request. *)
Lemma errored_excludes_gists_witness :
  errored failed_once && populated (gists failed_once) = false
  /\ errored failed_once = true /\ gists failed_once = VNull
  /\ substring_of (str "Failed to fetch") (errorMsg failed_once).
Proof.
  destruct (errored_excludes_gists (host := example_host) example_props)
    as [Hexcl Hfail].
  split; [exact (Hexcl Idle failed_once failed_once_reachable)|].
  destruct (Hfail (request_url example_props) (Throw (TypeError "Failed to fetch"))
              (started data) (TypeError "Failed to fetch") eq_refl)
    as (He & _ & Hg & _ & _ & Hm).
  split; [exact He|]. split; [exact Hg|exact Hm].
Defined.

(** An instance of C9: a successful response carrying an object. *)
Lemma non_array_body_is_an_error_witness :
  let body := VObj [(str "message", VStr (str "API rate limit exceeded"))] in
  let resp := ok_response body in
  (ok resp = true /\ json resp = Return body
   /\ forall elems, body <> VArr elems)
  /\ exists msg,
       requestJson [] (Return resp) = Return body
       /\ sort_gists (host := example_host) body = Throw (TypeError msg)
       /\ let d' := render_settle (host := example_host) [] (Return resp)
                      (started data) in
          errored d' = true /\ loading d' = false /\ gists d' = VNull
          /\ errorMsg d' = str "Unable to fetch Gists API data. Error: "
                           ++ Error_toString (TypeError msg).
Proof.
  intros body resp.
  assert (H1 : ok resp = true) by reflexivity.
  assert (H2 : json resp = Return body) by reflexivity.
  assert (H3 : forall elems, body <> VArr elems) by (intros elems; discriminate).
  split; [auto|].
  exact (non_array_body_is_an_error (host := example_host) [] resp body
           (started data) H1 H2 H3).
Defined.

(** An instance of C5: the two gists of the scenario. *)
Lemma stored_gists_sorted_by_recency_witness :
  let g1 := gist "1" "Foo Bar" "2023-01-02T00:00:00Z" in
  let g2 := gist "2" "Baz" "2023-05-01T00:00:00Z" in
  let resp := ok_response (VArr [g1; g2]) in
  (reachable (host := example_host) example_props Idle data
   /\ ok resp = true /\ json resp = Return (VArr [g1; g2])
   /\ forallb (valid_updated_at (host := example_host)) [g1; g2] = true)
  /\ exists d' sorted,
       render (host := example_host) example_props (Return resp) data = Return d'
       /\ gists d' = VArr sorted /\ loading d' = false /\ errored d' = false
       /\ Permutation [g1; g2] sorted
       /\ StronglySorted (not_older (host := example_host)) sorted
       /\ sort_gists (host := example_host) (VArr sorted) = Return (VArr sorted).
Proof.
  intros g1 g2 resp.
  assert (H0 : reachable (host := example_host) example_props Idle data)
    by apply reach_created.
  assert (H1 : ok resp = true) by reflexivity.
  assert (H2 : json resp = Return (VArr [g1; g2])) by reflexivity.
  assert (H3 : forallb (valid_updated_at (host := example_host)) [g1; g2] = true)
    by reflexivity.
  split; [auto|].
  exact (stored_gists_sorted_by_recency (host := example_host) example_props data
           resp [g1; g2] H0 H1 H2 H3).
Defined.

(** An instance of C2: the first cycle answered with the empty array. *)
Lemma empty_result_render_throws_witness :
  let resp := ok_response (VArr []) in
  (reachable (host := example_host) example_props Idle data
   /\ ok resp = true /\ json resp = Return (VArr []))
  /\ exists d',
       render (host := example_host) example_props (Return resp) data = Return d'
       /\ gists d' = VArr [] /\ loading d' = false /\ errored d' = false
       /\ (exists msg,
             template (host := example_host) example_props d'
             = Throw (TypeError msg))
       /\ no_match_condition (host := example_host) example_props d' = Return true
       /\ none_found_condition d' = true.
Proof.
  intros resp.
  assert (H0 : reachable (host := example_host) example_props Idle data)
    by apply reach_created.
  assert (H1 : ok resp = true) by reflexivity.
  assert (H2 : json resp = Return (VArr [])) by reflexivity.
  split; [auto|].
  exact (empty_result_render_throws (host := example_host) example_props
           data resp H0 H1 H2).
Defined.

(** Outside the life cycle above, with a second cycle started while the
    first is still in flight, the exclusion of C7 can fail: the first cycle
    fails, the second succeeds and stores its list without resetting
    [errored].  The program never gets there, since it starts one cycle per
    mount. *)
Remark overlapping_cycles_not_exclusive :
  let g := gist "1" "Foo" "2023-01-02T00:00:00Z" in
  let url := request_url example_props in
  let both_started := started (started data) in
  let first_failed :=
    render_settle (host := example_host) url
      (Throw (TypeError "Failed to fetch")) both_started in
  let second_succeeded :=
    render_settle (host := example_host) url
      (Return (ok_response (VArr [g]))) first_failed in
  errored second_succeeded = true /\ gists second_succeeded = VArr [g].
Proof. split; reflexivity. Qed.

(** * Further properties *)

(** ** The URL builder *)

Lemma Encode_returns s : well_formed s = true -> exists e, Encode s = Return e.
Proof.
  destruct (Encode s) as [e|err] eqn:E; [intros _; now exists e|].
  destruct (well_formed s) eqn:W; [|discriminate].
  exfalso. revert err E W.
  assert (G : forall n s, (List.length s <= n)%nat -> well_formed s = true ->
                          forall err, Encode s <> Throw err).
  { clear s. induction n as [|n IH]; intros [|c rest] Hlen Hwf err;
      try discriminate; simpl in Hlen; [lia|].
    cbn [Encode well_formed] in *.
    destruct (unescaped c) eqn:Hun.
    - pose proof (unescaped_ascii c Hun) as Hascii.
      assert (Hl : is_leading_surrogate c = false)
        by (unfold is_leading_surrogate, between; apply andb_false_iff; left;
            apply Z.leb_gt; lia).
      rewrite Hl in Hwf. apply andb_prop in Hwf as [_ Hwf].
      destruct (Encode rest) eqn:E; [discriminate|].
      now destruct (IH rest ltac:(lia) Hwf e).
    - destruct (is_leading_surrogate c).
      + destruct rest as [|c2 rest']; [discriminate|].
        apply andb_prop in Hwf as [Ht Hwf]. rewrite Ht. simpl in Hlen.
        destruct (Encode rest') eqn:E; [discriminate|].
        now destruct (IH rest' ltac:(lia) Hwf e).
      + apply andb_prop in Hwf as [Ht Hwf]. apply negb_true_iff in Ht. rewrite Ht.
        destruct (Encode rest) eqn:E; [discriminate|].
        now destruct (IH rest ltac:(lia) Hwf e). }
  intros err E W. exact (G (List.length s) s (le_n _) W err E).
Qed.

(** X1: the builder throws exactly when it is given a timestamp with an
    unpaired surrogate, and what it throws is the [URIError] of
    [encodeURIComponent]; the username and the limit never make it throw. *)
Theorem gistsApiUrl_throws_on_unpaired_surrogate (u : jsstring) (l : option Z)
    (sinceDate : option jsstring) :
  match gistsApiUrl u l sinceDate with
  | Throw e =>
      e = URIError /\ exists ts, sinceDate = Some ts /\ well_formed ts = false
  | Return _ =>
      sinceDate = None \/ exists ts, sinceDate = Some ts /\ well_formed ts = true
  end.
Proof.
  destruct sinceDate as [[|c ts]|]; cbn [gistsApiUrl].
  - right. now exists [].
  - unfold encodeURIComponent. destruct (well_formed (c :: ts)) eqn:W.
    + destruct (Encode_returns _ W) as (e & ->). cbn [bind].
      right. now exists (c :: ts).
    + rewrite (Encode_ill_formed _ W). cbn [bind].
      split; [reflexivity|]. now exists (c :: ts).
  - now left.
Qed.

(** X2: two timestamps that give the same URL are the same timestamp. *)
Theorem gistsApiUrl_separates_timestamps (u : jsstring) (l : option Z)
    (ts1 ts2 url : jsstring) :
  code_units ts1 = true -> code_units ts2 = true ->
  gistsApiUrl u l (Some ts1) = Return url ->
  gistsApiUrl u l (Some ts2) = Return url ->
  ts1 = ts2.
Proof.
  intros Hc1 Hc2 H1 H2.
  assert (Hwf : forall ts, gistsApiUrl u l (Some ts) = Return url ->
                           well_formed ts = true).
  { intros ts H. destruct (well_formed ts) eqn:W; [reflexivity|].
    destruct ts as [|c ts]; [discriminate W|].
    pose proof (eq_trans (eq_sym (gistsApiUrl_ill_formed_since u l c ts W)) H) as F.
    discriminate F. }
  pose proof (Hwf _ H1) as W1. pose proof (Hwf _ H2) as W2.
  destruct (Encode_Decode _ ts1 (le_n _) Hc1 W1) as (e1 & E1 & _ & D1).
  destruct (Encode_Decode _ ts2 (le_n _) Hc2 W2) as (e2 & E2 & _ & D2).
  set (base := str "https://api.github.com/users/" ++ u
               ++ str "/gists?per_page=" ++ Number_toString (effective_limit l)).
  assert (Hurl : forall ts e, Encode ts = Return e ->
            gistsApiUrl u l (Some ts)
            = Return (match ts with
                      | [] => base
                      | _ :: _ => base ++ str "&since=" ++ e
                      end)).
  { intros [|c ts] e He; [reflexivity|].
    unfold gistsApiUrl, encodeURIComponent. rewrite He. reflexivity. }
  rewrite (Hurl _ _ E1) in H1. rewrite (Hurl _ _ E2) in H2.
  rewrite <- H2 in H1.
  assert (Hinj : forall a b : jsstring, Return a = Return b -> a = b)
    by (intros a b E; now injection E).
  apply Hinj in H1. clear Hinj.
  assert (Hnil : forall e, base <> base ++ str "&since=" ++ e).
  { intros e H. rewrite <- (app_nil_r base) in H at 1.
    apply app_inv_head in H. discriminate H. }
  destruct ts1 as [|c1 ts1], ts2 as [|c2 ts2]; try reflexivity.
  - now destruct (Hnil e2).
  - symmetry in H1. now destruct (Hnil e1).
  - apply app_inv_head in H1. apply app_inv_head in H1. subst e2.
    specialize (D1 _ (le_n _)). specialize (D2 _ (le_n _)). congruence.
Qed.

(** An instance of X2: the threshold of [data]. *)
Lemma gistsApiUrl_separates_timestamps_witness :
  let u := str "deadflowers" in
  let ts := str "2022-01-01T00:00:00Z" in
  let url := str "https://api.github.com/users/deadflowers/gists?per_page=100&since=2022-01-01T00%3A00%3A00Z" in
  (code_units ts = true /\ gistsApiUrl u None (Some ts) = Return url)
  /\ ts = ts.
Proof.
  intros u ts url.
  assert (H1 : code_units ts = true) by reflexivity.
  assert (H2 : gistsApiUrl u None (Some ts) = Return url) by reflexivity.
  split; [auto|].
  exact (gistsApiUrl_separates_timestamps u None ts ts url H1 H1 H2 H2).
Defined.

(** X3: the builder does not clamp or validate the limit: for a username
    without [?] and [#], any limit that is a non-negative safe integer, also
    above 100, and 100 when the limit is omitted, and with or without a
    timestamp, the URL has [per_page] as its first parameter and its only
    one of that name, and its value reads back as exactly that limit. *)
Theorem per_page_is_not_clamped (u : jsstring) (limit : option Z)
    (sinceDate : option jsstring) :
  lacks 63 u = true -> lacks 35 u = true ->
  0 <= effective_limit limit <= MAX_SAFE_INTEGER ->
  accepted_since sinceDate = true ->
  exists url rest,
    gistsApiUrl u limit sinceDate = Return url
    /\ query_params url
       = (str "per_page", Number_toString (effective_limit limit)) :: rest
    /\ ~ In (str "per_page") (map fst rest)
    /\ number_of 0 (Number_toString (effective_limit limit))
       = Some (effective_limit limit).
Proof.
  intros Hq Hf Hl Hacc.
  destruct (gistsApiUrl_query u limit sinceDate Hq Hf (proj1 Hl) Hacc)
    as (url & Hurl & Hp).
  assert (Hval := proj2 (Number_toString_decimal _ (proj1 Hl))).
  exists url.
  destruct sinceDate as [[|c ts]|].
  - exists []. repeat split; try assumption. intros [].
  - destruct Hp as (e & Hp & _). exists [(str "since", e)].
    repeat split; try assumption. intros [H|[]]. discriminate H.
  - exists []. repeat split; try assumption. intros [].
Qed.

(** An instance of X3: a limit of 1000 and the threshold of [data]. *)
Lemma per_page_is_not_clamped_witness :
  let u := str "dead_flowers.x" in
  let since := Some (str "2022-01-01T00:00:00Z") in
  (lacks 63 u = true /\ lacks 35 u = true
   /\ 0 <= effective_limit (Some 1000) <= MAX_SAFE_INTEGER
   /\ accepted_since since = true)
  /\ exists url rest,
       gistsApiUrl u (Some 1000) since = Return url
       /\ query_params url = (str "per_page", Number_toString 1000) :: rest
       /\ ~ In (str "per_page") (map fst rest)
       /\ number_of 0 (Number_toString 1000) = Some 1000.
Proof.
  intros u since.
  assert (H1 : lacks 63 u = true) by reflexivity.
  assert (H2 : lacks 35 u = true) by reflexivity.
  assert (H3 : 0 <= effective_limit (Some 1000) <= MAX_SAFE_INTEGER)
    by (unfold MAX_SAFE_INTEGER; simpl; lia).
  assert (H4 : accepted_since since = true) by reflexivity.
  split; [auto|].
  exact (per_page_is_not_clamped u (Some 1000) since H1 H2 H3 H4).
Defined.

(** ** The links of the page *)

(** X4: for a GitHub login, each of the three links of the page is a plain
    path: it has no query parameter and no fragment, and the repository link
    is the profile link followed by ["/gist-viewer"]. *)
Theorem page_links_are_plain_paths (u : jsstring) :
  valid_username u = true ->
  Forall (fun url => url_path url = url /\ query_params url = [])
         [profileUrl u; repoUrl u; gistsUrl u]
  /\ repoUrl u = profileUrl u ++ str "/gist-viewer".
Proof.
  intros Hu.
  pose proof (username_lacks 63 u ltac:(simpl; auto) Hu) as Hq.
  pose proof (username_lacks 35 u ltac:(simpl; auto) Hu) as Hf.
  assert (G : forall url, lacks 63 url = true -> lacks 35 url = true ->
                          url_path url = url /\ query_params url = []).
  { intros url H63 H35. unfold url_path, query_params.
    rewrite (break_at_none 63 url H63), (break_at_none 35 url H35). cbn [fst snd].
    rewrite (break_at_none 35 url H35), (break_at_none 63 url H63). now split. }
  split; [|reflexivity].
  assert (G' : forall url, lacks 63 url && lacks 35 url = true ->
                           url_path url = url /\ query_params url = [])
    by (intros url H; apply andb_prop in H as [H1 H2]; now apply G).
  do 3 (constructor;
        [apply G'; unfold repoUrl; unfold profileUrl, gistsUrl, REPO_NAME;
         rewrite ?lacks_app, ?Hq, ?Hf; reflexivity|]).
  constructor.
Qed.

(** An instance of X4: the login of the page. *)
Lemma page_links_are_plain_paths_witness :
  valid_username USERNAME = true
  /\ Forall (fun url => url_path url = url /\ query_params url = [])
            [profileUrl USERNAME; repoUrl USERNAME; gistsUrl USERNAME]
  /\ repoUrl USERNAME = profileUrl USERNAME ++ str "/gist-viewer".
Proof.
  assert (H : valid_username USERNAME = true) by reflexivity.
  split; [exact H|]. exact (page_links_are_plain_paths USERNAME H).
Defined.

(** ** The fetch cycle, on any response *)

(** *** The sort, on any array *)

Section Cycle.
Context {host : Host}.

Lemma sort_insert_permutation x l r :
  sort_insert by_updated_at x l = Return r -> Permutation (x :: l) r.
Proof.
  revert r. induction l as [|y l IH]; intros r; cbn [sort_insert].
  - intros H. injection H as <-. reflexivity.
  - destruct (SortCompare by_updated_at x y) as [v|]; [|discriminate]. cbn [bind].
    destruct (v <=? 0).
    + intros H. injection H as <-. reflexivity.
    + destruct (sort_insert by_updated_at x l) as [r'|]; [|discriminate].
      cbn [bind]. intros H. injection H as <-.
      rewrite perm_swap. constructor. now apply IH.
Qed.

Lemma sort_elems_permutation l s :
  sort_elems by_updated_at l = Return s -> Permutation l s.
Proof.
  revert s. induction l as [|x l IH]; intros s; cbn [sort_elems].
  - intros H. injection H as <-. constructor.
  - destruct (sort_elems by_updated_at l) as [s'|]; [|discriminate]. cbn [bind].
    intros H. apply sort_insert_permutation in H.
    rewrite <- H. constructor. now apply IH.
Qed.

Lemma sort_gists_returns_array v r :
  sort_gists v = Return r ->
  exists elems sorted,
    v = VArr elems /\ r = VArr sorted
    /\ sort_elems by_updated_at elems = Return sorted.
Proof.
  destruct v; try discriminate. cbn [sort_gists].
  destruct (sort_elems by_updated_at elems) as [sorted|] eqn:E; [|discriminate].
  cbn [bind]. intros H. injection H as <-. now exists elems, sorted.
Qed.

(** X5: whatever the response carries, a cycle that stores a list stores a
    rearrangement of the array it received: no gist is dropped, added or
    duplicated, also when some [updated_at] is missing or unreadable. *)
Theorem stored_list_is_a_rearrangement (url : jsstring) (resp : Response)
    (d : Data) (body : value) :
  json resp = Return body ->
  errored (render_settle url (Return resp) d) = false ->
  exists elems sorted,
    body = VArr elems
    /\ gists (render_settle url (Return resp) d) = VArr sorted
    /\ Permutation elems sorted.
Proof.
  intros Hjson. unfold render_settle.
  destruct (fetch_and_sort url (Return resp)) as [v|e] eqn:E; [|discriminate].
  intros _. unfold fetch_and_sort, requestJson in E. cbn [bind] in E.
  destruct (negb (ok resp)); [discriminate|]. rewrite Hjson in E. cbn [bind] in E.
  destruct (sort_gists_returns_array _ _ E) as (elems & sorted & -> & -> & Hs).
  exists elems, sorted. repeat split. now apply sort_elems_permutation.
Qed.

(** *** Ties *)

Lemma filter_sort_insert t x l r :
  valid_updated_at x = true ->
  Forall (fun g => valid_updated_at g = true) l ->
  sort_insert by_updated_at x l = Return r ->
  List.filter (updated_at_is t) r = List.filter (updated_at_is t) (x :: l).
Proof.
  intros Hx. destruct (valid_updated_at_time _ Hx) as (tx & Tx).
  revert r. induction l as [|y l IH]; intros r Hl; cbn [sort_insert].
  - intros H. now injection H as <-.
  - inversion Hl as [|? ? Hy Hl']; subst.
    destruct (valid_updated_at_time _ Hy) as (ty & Ty).
    rewrite (SortCompare_times _ _ _ _ Tx Ty). cbn [bind].
    destruct (Z.leb_spec (ty - tx) 0) as [Hle|Hgt].
    + intros H. now injection H as <-.
    + destruct (sort_insert by_updated_at x l) as [r'|]; [|discriminate].
      cbn [bind]. intros H. injection H as <-.
      cbn [List.filter]. rewrite (IH r' Hl' eq_refl). cbn [List.filter].
      destruct (updated_at_is t x) eqn:Ux, (updated_at_is t y) eqn:Uy;
        try reflexivity.
      unfold updated_at_is in Ux, Uy. rewrite Tx in Ux. rewrite Ty in Uy.
      apply Z.eqb_eq in Ux, Uy. lia.
Qed.

(** X6: the sort is stable on gists with instants: the gists updated at any
    one instant are stored in the order in which the response listed them. *)
Theorem ties_keep_response_order (elems sorted : list value) (t : Z) :
  forallb valid_updated_at elems = true ->
  sort_gists (VArr elems) = Return (VArr sorted) ->
  List.filter (updated_at_is t) sorted = List.filter (updated_at_is t) elems.
Proof.
  intros Hvalid Hsort. cbn [sort_gists] in Hsort.
  destruct (sort_elems by_updated_at elems) as [s|] eqn:E; [|discriminate].
  cbn [bind] in Hsort. injection Hsort as <-.
  assert (Hall : Forall (fun g => valid_updated_at g = true) elems)
    by (apply Forall_forall; now apply forallb_forall).
  clear Hvalid. revert s E.
  induction Hall as [|x l Hx Hl IH]; intros s; cbn [sort_elems].
  - intros H. now injection H as <-.
  - destruct (sort_elems by_updated_at l) as [s'|] eqn:E'; [|discriminate].
    cbn [bind]. intros H.
    assert (Hs' : Forall (fun g => valid_updated_at g = true) s')
      by (eapply Permutation_Forall; [apply sort_elems_permutation; exact E'|exact Hl]).
    rewrite (filter_sort_insert t x s' s Hx Hs' H).
    cbn [List.filter]. now rewrite (IH s' eq_refl).
Qed.

(** *** A [null] entry *)

Lemma SortCompare_null_r x :
  x <> VUndefined -> exists e, SortCompare by_updated_at x VNull = Throw e.
Proof.
  intros Hx. destruct x; try congruence; eexists; reflexivity.
Qed.

Lemma SortCompare_null_l y :
  y <> VUndefined -> exists e, SortCompare by_updated_at VNull y = Throw e.
Proof.
  intros Hy.
  assert (G : exists e, by_updated_at VNull y = Throw e).
  { unfold by_updated_at.
    destruct (get_prop y "updated_at") as [ub|e]; cbn [bind]; [|now exists e].
    destruct (Date_new ub) as [tb|e]; cbn [bind]; [|now exists e].
    eexists. reflexivity. }
  destruct G as (e & G). exists e.
  destruct y; try congruence; cbn [SortCompare]; now rewrite G.
Qed.

Lemma sort_elems_with_null l s :
  ~ In VUndefined l -> In VNull l ->
  sort_elems by_updated_at l = Return s -> l = [VNull].
Proof.
  revert s. induction l as [|x l IH]; intros s Hu Hn; [destruct Hn|].
  cbn [sort_elems].
  destruct (sort_elems by_updated_at l) as [s'|] eqn:E; [|discriminate].
  cbn [bind]. intros H.
  assert (Hxu : x <> VUndefined) by (intros ->; apply Hu; now left).
  assert (Hlu : ~ In VUndefined l) by (intros F; apply Hu; now right).
  pose proof (sort_elems_permutation _ _ E) as P.
  set (is_null := fun v => match v with VNull => true | _ => false end).
  assert (Hdec : In VNull l \/ ~ In VNull l).
  { destruct (existsb is_null l) eqn:Ex.
    - left. apply existsb_exists in Ex as (v & Hv & Nv).
      destruct v; try discriminate Nv. exact Hv.
    - right. intros Hin.
      assert (Ex' : existsb is_null l = true)
        by (apply existsb_exists; now exists VNull).
      congruence. }
  destruct Hdec as [Hin|Hnin].
  - (* the tail already holds a [null]: it is the tail itself *)
    rewrite (IH s' Hlu Hin eq_refl) in E. cbn in E. injection E as <-.
    cbn [sort_insert] in H.
    destruct (SortCompare_null_r x Hxu) as (e & C). rewrite C in H. discriminate H.
  - destruct Hn as [->|Hn]; [|contradiction].
    destruct s' as [|y s'].
    + apply Permutation_sym, Permutation_nil in P. now subst l.
    + cbn [sort_insert] in H.
      assert (Hy : y <> VUndefined).
      { intros ->. apply Hlu. apply (Permutation_in _ (Permutation_sym P)). now left. }
      destruct (SortCompare_null_l y Hy) as (e & C). rewrite C in H. discriminate H.
Qed.

(** X7: in an array without [undefined], a [null] entry makes the comparator
    throw as soon as the array has a second entry, and the cycle then ends
    errored with no list; a [null] that is the only entry is never compared
    and is stored. *)
Theorem null_entry_fails_the_cycle (url : jsstring) (resp : Response) (d : Data)
    (elems : list value) :
  ok resp = true -> json resp = Return (VArr elems) ->
  ~ In VUndefined elems -> In VNull elems ->
  let d' := render_settle url (Return resp) d in
  loading d' = false
  /\ ((2 <= List.length elems)%nat -> errored d' = true /\ gists d' = VNull)
  /\ (elems = [VNull] -> errored d' = errored d /\ gists d' = VArr [VNull]).
Proof.
  intros Hok Hjson Hu Hn. cbv zeta.
  assert (Hreq : fetch_and_sort url (Return resp) = sort_gists (VArr elems))
    by (unfold fetch_and_sort, requestJson; cbn [bind]; now rewrite Hok, Hjson).
  unfold render_settle. rewrite Hreq. split; [reflexivity|]. split.
  - intros Hlen. cbn [sort_gists].
    destruct (sort_elems by_updated_at elems) as [s|e] eqn:E; [|now split].
    rewrite (sort_elems_with_null _ _ Hu Hn E) in Hlen. simpl in Hlen. lia.
  - intros ->. now split.
Qed.

(** *** Rejections *)

(** X8: a rejected request and an unreadable body of a successful response
    are passed on by [requestJson] as they are, and end the cycle errored,
    with no list and with the message ["Unable to fetch Gists API data.
    Error: "] followed by the text of that very exception. *)
Theorem rejections_end_errored (url : jsstring) (fetched : completion Response)
    (d : Data) (e : Error) :
  (fetched = Throw e
   \/ exists resp, fetched = Return resp /\ ok resp = true /\ json resp = Throw e) ->
  requestJson url fetched = Throw e
  /\ let d' := render_settle url fetched d in
     errored d' = true /\ loading d' = false /\ gists d' = VNull
     /\ errorMsg d' = str "Unable to fetch Gists API data. Error: "
                      ++ Error_toString e.
Proof.
  intros H.
  assert (Hreq : requestJson url fetched = Throw e).
  { destruct H as [->|(resp & -> & Hok & Hjson)]; [reflexivity|].
    unfold requestJson. cbn [bind]. now rewrite Hok. }
  split; [exact Hreq|]. cbv zeta.
  rewrite (render_settle_failure url fetched d e); [now repeat split|].
  unfold fetch_and_sort. now rewrite Hreq.
Qed.

(** *** The states of the life cycle *)

Lemma reachable_state p ph d :
  reachable p ph d ->
  (is_loading d
   \/ (is_errored d
       /\ exists e, errorMsg d = str "Unable to fetch Gists API data. Error: "
                                 ++ Error_toString e)
   \/ is_ready d)
  /\ (forall url, ph = Awaiting url -> is_loading d /\ url = request_url p).
Proof.
  unfold is_loading, is_errored, is_ready.
  induction 1 as [|d url d' Hr IH Hstart|d url fetched Hr IH].
  - split; [left; now repeat split|discriminate].
  - rewrite (render_start_default p d (reachable_threshold _ _ _ Hr)) in Hstart.
    injection Hstart as <- <-.
    split; [left; now repeat split|]. intros u Hu. injection Hu as <-.
    now repeat split.
  - destruct IH as [_ IH]. destruct (IH url eq_refl) as ((Hl & He & Hg) & _).
    split; [|discriminate].
    unfold render_settle.
    destruct (fetch_and_sort url fetched) as [v|e] eqn:E.
    + right. right. cbn. repeat split; [exact He|].
      unfold fetch_and_sort in E.
      destruct (requestJson url fetched) as [body|]; [|discriminate].
      cbn [bind] in E.
      destruct (sort_gists_returns_array _ _ E) as (elems & sorted & _ & -> & _).
      now exists sorted.
    + right. left. cbn. split; [now repeat split|]. now exists e.
Qed.

(** X9: every state of the life cycle is one of the three states Loading ([loading],
    not [errored], no list), Errored (not [loading], [errored], no list) and
    Ready (not [loading], not [errored], an array as the list); while a
    request is in flight the state is Loading, and the URL requested is the
    same in every cycle. *)
Theorem life_cycle_has_three_states (p : Props) (ph : phase) (d : Data) :
  reachable p ph d ->
  (is_loading d \/ is_errored d \/ is_ready d)
  /\ (forall url, ph = Awaiting url -> is_loading d /\ url = request_url p).
Proof.
  intros Hr. destruct (reachable_state p ph d Hr) as [H1 H2].
  split; [|exact H2]. destruct H1 as [H|[[H _]|H]]; auto.
Qed.

(** X10: whenever the state of the life cycle is errored, the stored
    message is the fixed text ["Unable to fetch Gists API data. Error: "]
    followed by the text of an exception, and the template shows the error
    block with that message and nothing else. *)
Theorem error_block_shows_the_failure (p : Props) (ph : phase) (d : Data) :
  reachable p ph d -> errored d = true ->
  exists e,
    errorMsg d = str "Unable to fetch Gists API data. Error: " ++ Error_toString e
    /\ template p d
       = Return {| error_shown := Some (errorMsg d); loading_shown := false;
                   table_shown := false; no_match_shown := false;
                   none_found_shown := false |}.
Proof.
  intros Hr He. destruct (reachable_state p ph d Hr) as [H _].
  unfold is_loading, is_errored, is_ready in H.
  destruct H as [(_ & H & _)|[(_ & e & Hmsg)|(_ & H & _)]]; try congruence.
  exists e. split; [exact Hmsg|]. unfold template. now rewrite He.
Qed.

(** *** What the template shows in the life cycle *)

Lemma filter_gists_returns p elems :
  existsb nullish elems = false ->
  exists kept, filter_gists p elems = Return kept.
Proof.
  induction elems as [|g elems IH]; intros Hn; [now exists []|].
  cbn [existsb] in Hn. apply orb_false_iff in Hn as [Hg Hn].
  destruct (IH Hn) as (kept & Hk). cbn [filter_gists].
  assert (Hd : exists desc, get_prop g "description" = Return desc)
    by (destruct g; try discriminate Hg; eexists; reflexivity).
  destruct Hd as (desc & ->). cbn [bind].
  rewrite contains_includes. cbn [bind]. rewrite Hk. cbn [bind].
  eexists. reflexivity.
Qed.

Lemma filter_gists_throws p elems e :
  filter_gists p elems = Throw e -> existsb nullish elems = true.
Proof.
  intros H. destruct (existsb nullish elems) eqn:N; [reflexivity|].
  destruct (filter_gists_returns p elems N) as (kept & K). congruence.
Qed.

(** X11: the table is never shown.  In every state of the life cycle,
    rendering the template either returns, in a Loading or Errored state,
    and then shows exactly one of the loading line and the error block, no
    table and no "no results" paragraph; or throws a [TypeError], which it
    does in every Ready state, at the [v-if] of the table row. *)
Theorem template_never_shows_the_table (p : Props) (ph : phase) (d : Data) :
  reachable p ph d ->
  match template p d with
  | Return v =>
      (is_loading d \/ is_errored d)
      /\ blocks_shown v = 1%nat /\ table_shown v = false
      /\ no_match_shown v = false /\ none_found_shown v = false
  | Throw e => is_ready d /\ name e = str "TypeError"
  end.
Proof.
  intros Hr. destruct (reachable_state p ph d Hr) as [H _].
  assert (Hcases : is_loading d \/ is_errored d \/ is_ready d)
    by (destruct H as [H|[[H _]|H]]; auto).
  clear H. unfold is_loading, is_errored, is_ready in *.
  unfold template, table_block, no_match_condition, none_found_condition.
  destruct Hcases as [(Hl & He & Hg)|[(Hl & He & Hg)|(Hl & He & elems & Hg)]];
    rewrite ?Hl, ?He, ?Hg; cbn.
  - split; [left; now repeat split|now repeat split].
  - split; [right; now repeat split|now repeat split].
  - split; [|reflexivity]. repeat split. now exists elems.
Qed.

(** X12: for a GitHub login, every request of the life cycle has the two
    parameters [per_page], which is 100, and [since], whose value decodes to
    the threshold of the state. *)
Theorem every_request_carries_the_threshold (p : Props) (url : jsstring) (d : Data) :
  valid_username (username p) = true ->
  reachable p (Awaiting url) d ->
  exists e,
    query_params url = [(str "per_page", str "100"); (str "since", e)]
    /\ decodeURIComponent e = Return (sinceDateThreshold d).
Proof.
  intros Hu Hr.
  destruct (reachable_state p _ d Hr) as [_ H].
  destruct (H url eq_refl) as [_ ->].
  rewrite (reachable_threshold _ _ _ Hr).
  exists (str "2022-01-01T00%3A00%3A00Z"). split; [|reflexivity].
  replace (request_url p)
    with ((str "https://api.github.com/users/" ++ username p
           ++ str "/gists?per_page=" ++ str "100")
          ++ str "&since=" ++ str "2022-01-01T00%3A00%3A00Z")
    by (unfold request_url; rewrite <- !app_assoc; reflexivity).
  apply query_params_since.
  - apply (username_lacks 63); [simpl; auto|assumption].
  - apply (username_lacks 35); [simpl; auto|assumption].
  - reflexivity.
  - apply Forall_forall. intros c Hc.
    assert (G : forallb (fun c => unescaped c || (c =? 37))
                  (str "2022-01-01T00%3A00%3A00Z") = true) by reflexivity.
    rewrite forallb_forall in G. specialize (G c Hc).
    apply orb_prop in G as [G|G]; [now left|right; now apply Z.eqb_eq].
Qed.

(** *** The filter in the template *)

Lemma filter_gists_empty_filter p elems :
  filter p = [] -> existsb nullish elems = false ->
  filter_gists p elems = Return elems.
Proof.
  intros Hf. induction elems as [|g elems IH]; intros Hn; [reflexivity|].
  cbn [existsb] in Hn. apply orb_false_iff in Hn as [Hg Hn].
  cbn [filter_gists]. rewrite Hf, (IH Hn).
  destruct g; try discriminate Hg; reflexivity.
Qed.

(** X13: with the empty filter every gist passes the expression
    [gists.filter(gist => contains(gist.description, filter))]: on a list
    without [null] or [undefined] entry it keeps the whole list, so that the
    condition of the "no gists match" paragraph holds exactly when the list
    is empty. *)
Theorem empty_filter_keeps_every_gist (p : Props) (d : Data) (elems : list value) :
  filter p = [] ->
  loading d = false -> gists d = VArr elems ->
  existsb nullish elems = false ->
  filter_gists p elems = Return elems
  /\ no_match_condition p d
     = Return match elems with [] => true | _ :: _ => false end.
Proof.
  intros Hf Hl Hg Hn.
  pose proof (filter_gists_empty_filter p elems Hf Hn) as Hk.
  split; [exact Hk|].
  unfold no_match_condition.
  rewrite Hl, Hg. cbn [truthy negb]. rewrite Hk. cbn [bind].
  now destruct elems.
Qed.


(** X17: the paragraph "No gists found updated since ..." of the
    [v-else-if] is dead: in no state does the template show it, because
    whenever its own condition holds, the condition of the [v-if] before it
    holds as well or throws. *)
Theorem none_found_paragraph_is_dead (p : Props) (d : Data) :
  (forall v, template p d = Return v -> none_found_shown v = false)
  /\ (none_found_condition d = true ->
      no_match_condition p d = Return true
      \/ exists e, no_match_condition p d = Throw e).
Proof.
  split; [intros v; apply none_found_never_shown|].
  unfold none_found_condition, no_match_condition.
  destruct (loading d); [discriminate|].
  destruct (gists d) as [| |[]|n|[|c s]|[|g elems]|props];
    cbn [truthy negb andb]; try discriminate.
  - destruct (n =? 0); discriminate.
  - intros _. now left.
  - intros _. right. eexists. reflexivity.
Qed.

(** *** Successive cycles *)

(** X18: a cycle forgets the state before it: started from any two states
    between cycles and settled with the same outcome, it ends with the same
    list, the same flags and, when it fails, the same message. *)
Theorem cycle_forgets_the_previous_state (p : Props)
    (fetched : completion Response) (d1 d2 : Data) :
  reachable p Idle d1 -> reachable p Idle d2 ->
  exists a b,
    render p fetched d1 = Return a /\ render p fetched d2 = Return b
    /\ gists a = gists b /\ loading a = loading b /\ errored a = errored b
    /\ (errored a = true -> errorMsg a = errorMsg b).
Proof.
  intros H1 H2.
  destruct (render_from_idle p d1 fetched H1) as [_ R1].
  destruct (render_from_idle p d2 fetched H2) as [_ R2].
  eexists. eexists. split; [exact R1|]. split; [exact R2|].
  unfold render_settle.
  destruct (fetch_and_sort (request_url p) fetched); cbn; repeat split; congruence.
Qed.

End Cycle.

(** ** The cells of a row *)

Lemma string_eqb_eq a b : string_eqb a b = true <-> a = b.
Proof.
  revert b. induction a as [|x a IH]; intros [|y b]; simpl; split;
    try reflexivity; try discriminate.
  - rewrite andb_true_iff, Z.eqb_eq, IH. now intros [-> ->].
  - intros H. injection H as -> ->. rewrite Z.eqb_refl. now apply IH.
Qed.

Lemma distinct_keys_NoDup props :
  NoDup (map fst props) -> distinct_keys props = map fst props.
Proof.
  induction props as [|[k v] props IH]; intros Hnd; [reflexivity|].
  cbn [map fst] in Hnd. inversion Hnd as [|? ? Hk Hnd']; subst.
  cbn [distinct_keys map fst]. rewrite (IH Hnd'). f_equal.
  apply forallb_filter_id. apply forallb_forall. intros k' Hk'.
  apply negb_true_iff. destruct (string_eqb k k') eqn:E; [|reflexivity].
  apply string_eqb_eq in E. now subst k'.
Qed.

(** X15: the Files cell never throws on a gist that is not [null] or
    [undefined]; it shows the number of properties of [files] when that is
    an object, and 0 when [files] is missing or [null]. *)
Theorem files_cell_counts_files (gist : value) :
  nullish gist = false ->
  exists n,
    files_cell gist = Return (VNum n) /\ 0 <= n
    /\ (forall fs, get_prop gist "files" = Return (VObj fs) ->
                   NoDup (map fst fs) -> n = Z.of_nat (List.length fs))
    /\ (forall v, get_prop gist "files" = Return v -> nullish v = true -> n = 0).
Proof.
  intros Hg.
  assert (Hget : exists files, get_prop gist "files" = Return files)
    by (destruct gist; try discriminate Hg; eexists; reflexivity).
  destruct Hget as (files & Hget). unfold files_cell. rewrite Hget. cbn [bind].
  eexists. split; [reflexivity|]. split.
  - destruct (truthy files); [|lia]. destruct files; simpl; lia.
  - split.
    + intros fs H Hnd. injection H as ->. cbn [truthy Object_keys_length].
      now rewrite (distinct_keys_NoDup fs Hnd), length_map.
    + intros v H Hv. injection H as ->. now destruct v.
Qed.





(** ** Concrete runs of the further properties *)

(** An instance of X5: a gist without [updated_at] among the entries. *)
Lemma stored_list_is_a_rearrangement_witness :
  let g := gist "1" "Foo Bar" "2023-01-02T00:00:00Z" in
  let body := VArr [VObj []; g] in
  let resp := ok_response body in
  let d' := render_settle (host := example_host) [] (Return resp) (started data) in
  (json resp = Return body /\ errored d' = false)
  /\ exists elems sorted,
       body = VArr elems /\ gists d' = VArr sorted /\ Permutation elems sorted.
Proof.
  intros g body resp d'.
  assert (H1 : json resp = Return body) by reflexivity.
  assert (H2 : errored d' = false) by reflexivity.
  split; [auto|].
  exact (stored_list_is_a_rearrangement (host := example_host) [] resp
           (started data) body H1 H2).
Defined.

(** An instance of X6: two gists updated at the same instant around a
    later one. *)
Lemma ties_keep_response_order_witness :
  let a := gist "a" "first" "2023-01-02T00:00:00Z" in
  let b := gist "b" "newest" "2023-05-01T00:00:00Z" in
  let c := gist "c" "second" "2023-01-02T00:00:00Z" in
  let t := 1672617600000 in
  (forallb (valid_updated_at (host := example_host)) [a; b; c] = true
   /\ sort_gists (host := example_host) (VArr [a; b; c]) = Return (VArr [b; a; c]))
  /\ List.filter (updated_at_is (host := example_host) t) [b; a; c]
     = List.filter (updated_at_is (host := example_host) t) [a; b; c].
Proof.
  intros a b c t.
  assert (H1 : forallb (valid_updated_at (host := example_host)) [a; b; c] = true)
    by reflexivity.
  assert (H2 : sort_gists (host := example_host) (VArr [a; b; c])
               = Return (VArr [b; a; c])) by reflexivity.
  split; [auto|].
  exact (ties_keep_response_order (host := example_host) [a; b; c] [b; a; c] t H1 H2).
Defined.

(** An instance of X7: a [null] before one gist. *)
Lemma null_entry_fails_the_cycle_witness :
  let elems := [VNull; gist "1" "Foo Bar" "2023-01-02T00:00:00Z"] in
  let resp := ok_response (VArr elems) in
  let d' := render_settle (host := example_host) [] (Return resp) (started data) in
  (ok resp = true /\ json resp = Return (VArr elems)
   /\ ~ In VUndefined elems /\ In VNull elems)
  /\ loading d' = false
  /\ ((2 <= List.length elems)%nat -> errored d' = true /\ gists d' = VNull)
  /\ (elems = [VNull] -> errored d' = errored (started data)
                         /\ gists d' = VArr [VNull]).
Proof.
  intros elems resp d'.
  assert (H1 : ok resp = true) by reflexivity.
  assert (H2 : json resp = Return (VArr elems)) by reflexivity.
  assert (H3 : ~ In VUndefined elems)
    by (intros [H|[H|[]]]; discriminate H).
  assert (H4 : In VNull elems) by (now left).
  split; [auto|].
  exact (null_entry_fails_the_cycle (host := example_host) [] resp (started data)
           elems H1 H2 H3 H4).
Defined.

(** An instance of X8: a body that is not JSON. *)
Lemma rejections_end_errored_witness :
  let e := mkError (str "SyntaxError") (str "Unexpected token < in JSON") in
  let resp := {| status := 200; statusText := str "OK"; text := str "<html>";
                 json := Throw e |} in
  let d' := render_settle (host := example_host) [] (Return resp) (started data) in
  (exists r, Return resp = Return r /\ ok r = true /\ json r = Throw e)
  /\ requestJson [] (Return resp) = Throw e
  /\ errored d' = true /\ loading d' = false /\ gists d' = VNull
  /\ errorMsg d' = str "Unable to fetch Gists API data. Error: "
                   ++ Error_toString e.
Proof.
  intros e resp d'.
  assert (H : exists r, Return resp = Return r /\ ok r = true /\ json r = Throw e)
    by (exists resp; repeat split).
  split; [exact H|].
  exact (rejections_end_errored (host := example_host) [] (Return resp)
           (started data) e (or_intror H)).
Defined.

(** An instance of X9: the state after a rejected request. *)
Lemma life_cycle_has_three_states_witness :
  reachable (host := example_host) example_props Idle failed_once
  /\ (is_loading failed_once \/ is_errored failed_once \/ is_ready failed_once)
  /\ (forall url, Idle = Awaiting url ->
        is_loading failed_once /\ url = request_url example_props).
Proof.
  split; [exact failed_once_reachable|].
  exact (life_cycle_has_three_states (host := example_host) example_props Idle
           failed_once failed_once_reachable).
Defined.

(** An instance of X10: the state after a rejected request. *)
Lemma error_block_shows_the_failure_witness :
  (reachable (host := example_host) example_props Idle failed_once
   /\ errored failed_once = true)
  /\ exists e,
       errorMsg failed_once
       = str "Unable to fetch Gists API data. Error: " ++ Error_toString e
       /\ template (host := example_host) example_props failed_once
          = Return {| error_shown := Some (errorMsg failed_once);
                      loading_shown := false; table_shown := false;
                      no_match_shown := false; none_found_shown := false |}.
Proof.
  assert (H : errored failed_once = true) by reflexivity.
  split; [split; [exact failed_once_reachable|exact H]|].
  exact (error_block_shows_the_failure (host := example_host) example_props Idle
           failed_once failed_once_reachable H).
Defined.

(** An instance of X11: the ready state after a first successful cycle. *)
Lemma template_never_shows_the_table_witness :
  let resp := ok_response (VArr [gist "1" "Foo Bar" "2023-01-02T00:00:00Z"]) in
  let d := render_settle (host := example_host) (request_url example_props)
             (Return resp) (started data) in
  reachable (host := example_host) example_props Idle d
  /\ match template (host := example_host) example_props d with
     | Return v =>
         (is_loading d \/ is_errored d)
         /\ blocks_shown v = 1%nat /\ table_shown v = false
         /\ no_match_shown v = false /\ none_found_shown v = false
     | Throw e => is_ready d /\ name e = str "TypeError"
     end.
Proof.
  intros resp d.
  assert (H : reachable (host := example_host) example_props Idle d)
    by (apply reach_settle; apply (reach_start _ data);
        [apply reach_created|reflexivity]).
  split; [exact H|].
  exact (template_never_shows_the_table (host := example_host) example_props Idle
           d H).
Defined.

Lemma first_request_reachable :
  reachable (host := example_host) example_props
    (Awaiting (request_url example_props)) (started data).
Proof. apply (reach_start _ data); [apply reach_created|reflexivity]. Qed.

(** An instance of X12: the request made on mount. *)
Lemma every_request_carries_the_threshold_witness :
  (valid_username (username example_props) = true
   /\ reachable (host := example_host) example_props
        (Awaiting (request_url example_props)) (started data))
  /\ exists e,
       query_params (request_url example_props)
       = [(str "per_page", str "100"); (str "since", e)]
       /\ decodeURIComponent e = Return (sinceDateThreshold (started data)).
Proof.
  assert (H : valid_username (username example_props) = true) by reflexivity.
  split; [split; [exact H|exact first_request_reachable]|].
  exact (every_request_carries_the_threshold (host := example_host) example_props
           _ (started data) H first_request_reachable).
Defined.

(** An instance of X13: two gists and the empty filter. *)
Lemma empty_filter_keeps_every_gist_witness :
  let elems := [gist "2" "Baz" "2023-05-01T00:00:00Z";
                gist "1" "Foo Bar" "2023-01-02T00:00:00Z"] in
  let d := set_loading false (set_gists (VArr elems) data) in
  (filter example_props = [] /\ loading d = false
   /\ gists d = VArr elems /\ existsb nullish elems = false)
  /\ filter_gists (host := example_host) example_props elems = Return elems
  /\ no_match_condition (host := example_host) example_props d = Return false.
Proof.
  intros elems d.
  assert (H1 : filter example_props = []) by reflexivity.
  assert (H2 : loading d = false) by reflexivity.
  assert (H4 : gists d = VArr elems) by reflexivity.
  assert (H5 : existsb nullish elems = false) by reflexivity.
  split; [auto 6|].
  exact (empty_filter_keeps_every_gist (host := example_host) example_props d
           elems H1 H2 H4 H5).
Defined.


(** An instance of X15: a gist with two files. *)
Lemma files_cell_counts_files_witness :
  let fs := [(str "a.js", VObj []); (str "b.md", VObj [])] in
  let g := VObj [(str "id", VStr (str "1")); (str "files", VObj fs)] in
  nullish g = false
  /\ files_cell g = Return (VNum 2)
  /\ exists n,
       files_cell g = Return (VNum n) /\ 0 <= n
       /\ (forall fs', get_prop g "files" = Return (VObj fs') ->
                       NoDup (map fst fs') -> n = Z.of_nat (List.length fs'))
       /\ (forall v, get_prop g "files" = Return v -> nullish v = true -> n = 0).
Proof.
  intros fs g.
  assert (H : nullish g = false) by reflexivity.
  split; [exact H|]. split; [reflexivity|].
  exact (files_cell_counts_files g H).
Defined.


(** An instance of X17: the ready state with an empty list, and the state
    of a component just created. *)
Lemma none_found_paragraph_is_dead_witness :
  let d := set_loading false (set_gists (VArr []) data) in
  none_found_condition d = true
  /\ (no_match_condition (host := example_host) example_props d = Return true
      \/ exists e, no_match_condition (host := example_host) example_props d
                   = Throw e)
  /\ exists v, template (host := example_host) example_props data = Return v
               /\ none_found_shown v = false.
Proof.
  intros d.
  destruct (none_found_paragraph_is_dead (host := example_host) example_props d)
    as [_ Hcond].
  destruct (none_found_paragraph_is_dead (host := example_host) example_props data)
    as [Hdead _].
  assert (H : none_found_condition d = true) by reflexivity.
  split; [exact H|]. split; [exact (Hcond H)|].
  eexists. split; [reflexivity|]. now apply Hdead.
Defined.

(** An instance of X18: the first cycle and a cycle after a failed one. *)
Lemma cycle_forgets_the_previous_state_witness :
  let fetched := Return (ok_response (VArr [gist "1" "Foo" "2023-01-02T00:00:00Z"])) in
  (reachable (host := example_host) example_props Idle data
   /\ reachable (host := example_host) example_props Idle failed_once)
  /\ exists a b,
       render (host := example_host) example_props fetched data = Return a
       /\ render (host := example_host) example_props fetched failed_once = Return b
       /\ gists a = gists b /\ loading a = loading b /\ errored a = errored b
       /\ (errored a = true -> errorMsg a = errorMsg b).
Proof.
  intros fetched.
  assert (H1 : reachable (host := example_host) example_props Idle data)
    by apply reach_created.
  split; [split; [exact H1|exact failed_once_reachable]|].
  exact (cycle_forgets_the_previous_state (host := example_host) example_props
           fetched data failed_once H1 failed_once_reachable).
Defined.
